(** * infoware: operating-system identity query on Windows

    A shallow embedding of [src/system/OS_info/os_info_windows.cpp]:
    the WMI name resolver [version_name_wmi], the registry resolvers
    [build_number] and [version_name_reg], and the exported aggregator
    [iware::system::OS_info].

    The Win32, COM and C-library calls the file makes are foreign code.
    Their behaviour is supplied by a record [win32] of answers (one field
    per call site family), so every statement below quantifies over all
    behaviours of the platform unless it says otherwise.  The functions
    are written in a logging monad: the log records which calls were
    made and which resources were acquired and released.  The single
    function-local [static] of the file is passed explicitly into and out
    of [OS_info]. *)

From Stdlib Require Import ZArith Ascii String List Lia Bool.
From stdpp Require Import base list strings gmap.

Local Open Scope Z_scope.

(** ** Strings and fixed-width data *)

(** A [std::string] is its sequence of chars; it may hold NUL chars. *)
Abbreviation cxx_string := (list ascii).

Definition str (s : string) : cxx_string := list_ascii_of_string s.

Definition NUL : ascii := Ascii.zero.

Definition ascii_eqb (a b : ascii) : bool := Ascii.eqb a b.

Definition byte_val (c : ascii) : Z := Z.of_N (N_of_ascii c).

Definition DWORD_MOD : Z := 2 ^ 32.

(** Storing a value into a [DWORD] field keeps its low 32 bits. *)
Definition to_DWORD (v : Z) : Z := v mod DWORD_MOD.

(** [std::string(n, {})]: n chars, all NUL. *)
Definition string_of_size (n : nat) : cxx_string := repeat NUL n.

(** The callee writes [bytes] at the start of the caller's buffer [buf];
    the buffer keeps its size. *)
Definition store (buf bytes : cxx_string) : cxx_string :=
  take (length buf) (bytes ++ drop (length bytes) buf).

(** Reading a little-endian integer back from a buffer. *)
Fixpoint le_decode (bs : cxx_string) : Z :=
  match bs with
  | [] => 0
  | b :: bs' => byte_val b + 256 * le_decode bs'
  end.

(** The four bytes of a [DWORD], least significant first. *)
Definition dword_bytes (v : Z) : cxx_string :=
  map (fun k => ascii_of_N (Z.to_N ((v / 256 ^ k) mod 256))) [0; 1; 2; 3].

(** The chars a [char*] into the string denotes: up to the first NUL
    (the terminator [std::string] keeps after its last char included). *)
Fixpoint c_str (s : cxx_string) : cxx_string :=
  match s with
  | [] => []
  | c :: s' => if ascii_eqb c NUL then [] else c :: c_str s'
  end.

(** [std::string::find] with a C string: offset of the first occurrence. *)
Fixpoint starts_with (needle hay : cxx_string) : bool :=
  match needle, hay with
  | [], _ => true
  | _ :: _, [] => false
  | a :: needle', b :: hay' => ascii_eqb a b && starts_with needle' hay'
  end.

Fixpoint find_from (needle hay : cxx_string) (pos : nat) : option nat :=
  if starts_with needle hay then Some pos
  else match hay with
       | [] => None
       | _ :: hay' => find_from needle hay' (S pos)
       end.

Definition find (hay needle : cxx_string) : option nat := find_from needle hay 0.

(** [std::string::find(char)]. *)
Fixpoint find_char_from (c : ascii) (hay : cxx_string) (pos : nat) : option nat :=
  match hay with
  | [] => None
  | b :: hay' => if ascii_eqb b c then Some pos else find_char_from c hay' (S pos)
  end.

Definition find_char (hay : cxx_string) (c : ascii) : option nat := find_char_from c hay 0.

(** [std::string::resize(n)] for [n] not above the size. *)
Definition resize (s : cxx_string) (n : nat) : cxx_string := take n s.

(** ** C library: [strtok_r] and [strtoul] *)

Definition is_delim (delims : cxx_string) (c : ascii) : bool :=
  existsb (ascii_eqb c) delims.

(** [s + strspn(s, delims)] *)
Fixpoint skip_delims (delims s : cxx_string) : cxx_string :=
  match s with
  | [] => []
  | c :: s' => if is_delim delims c then skip_delims delims s' else s
  end.

(** The chars before [s + strcspn(s, delims)], and the chars from there. *)
Fixpoint span_token (delims s : cxx_string) : cxx_string * cxx_string :=
  match s with
  | [] => ([], [])
  | c :: s' =>
      if is_delim delims c then ([], s)
      else let '(tok, rest) := span_token delims s' in (c :: tok, rest)
  end.

(** [strtok_r(s, delims, &ctx)] on the chars [s] (the first argument, or
    the saved [ctx] when the first argument is null): the token found,
    if any, and the new [ctx].  The delimiter that ends the token is
    overwritten with NUL and [ctx] is set past it. *)
Definition strtok_r (s delims : cxx_string) : option cxx_string * cxx_string :=
  match skip_delims delims s with
  | [] => (None, [])
  | c :: s1 =>
      let '(tok, rest) := span_token delims (c :: s1) in
      (Some tok, drop 1 rest)
  end.

Definition ULONG_MAX : Z := 2 ^ 32 - 1.

Definition isspace (c : ascii) : bool :=
  let n := byte_val c in (n =? 32) || ((9 <=? n) && (n <=? 13)).

Definition digit_val (c : ascii) : option Z :=
  let n := byte_val c in
  if (48 <=? n) && (n <=? 57) then Some (n - 48) else None.

Fixpoint skip_space (s : cxx_string) : cxx_string :=
  match s with
  | [] => []
  | c :: s' => if isspace c then skip_space s' else s
  end.

Fixpoint read_digits (s : cxx_string) (acc : Z) : Z :=
  match s with
  | [] => acc
  | c :: s' =>
      match digit_val c with
      | Some d => read_digits s' (acc * 10 + d)
      | None => acc
      end
  end.

(** [strtoul(s, nullptr, 10)] with the 32-bit [unsigned long] of the
    platform: white space, an optional sign, the longest run of decimal
    digits; [ULONG_MAX] when the value does not fit, the negation
    modulo 2^32 after a minus sign, 0 when there is no digit. *)
Definition strtoul (s : cxx_string) : Z :=
  let s1 := skip_space s in
  let '(neg, s2) :=
    match s1 with
    | c :: t =>
        if ascii_eqb c "-" then (true, t)
        else if ascii_eqb c "+" then (false, t)
        else (false, s1)
    | [] => (false, s1)
    end in
  let v := read_digits s2 0 in
  if ULONG_MAX <? v then ULONG_MAX
  else if neg then (DWORD_MOD - v) mod DWORD_MOD
  else v.

(** ** Calls, resources and the monad *)

(** What a call can hold on to until it gives it back. *)
Inductive resource :=
| ComLibrary                (* CoInitializeEx / CoUninitialize *)
| WbemLocator               (* IWbemLocator* *)
| WbemServices              (* IWbemServices* *)
| QueryIterator             (* IEnumWbemClassObject* *)
| ClassObject (i : nat)     (* the i-th IWbemClassObject* handed out by Next *)
| VariantBox (i : nat)      (* the VARIANT filled by the i-th Get *)
| RegKey (h : positive).    (* an open HKEY *)

Inductive event :=
| EvCall (fn : string)                         (* a function of the file, or the legacy resolver, is entered *)
| EvAcquire (r : resource)
| EvRelease (r : resource)
| EvRegQuery (value : string) (fill : bool).   (* RegQueryValueExA; fill = a data buffer was passed *)

Global Instance resource_eq_dec : EqDecision resource.
Proof. solve_decision. Defined.

Global Instance event_eq_dec : EqDecision event.
Proof. solve_decision. Defined.

(** The only state that outlives a call: the function-local
    [static pRtlGetVersion] of [OS_info].  [None]: its initialiser has
    not run yet; [Some b]: it has, and the pointer is non-null iff [b]. *)
Record process := { pRtlGetVersion : option bool }.

Definition fresh_process : process := {| pRtlGetVersion := None |}.

(** A computation yields its result and the events it logged. *)
Definition M (A : Type) : Type := A * list event.

Definition ret {A} (a : A) : M A := (a, []).

Definition bind {A B} (c : M A) (k : A -> M B) : M B :=
  let '(a, t1) := c in
  let '(b, t2) := k a in
  (b, t1 ++ t2).

Definition emit (e : event) : M unit := (tt, [e]).

Declare Scope cxx_scope.
Delimit Scope cxx_scope with cxx.
Notation "'let*' x ':=' c 'in' k" := (bind c (fun x => k))
  (at level 10, x name, c at level 100, k at level 200) : cxx_scope.
Notation "'let*' ' pat ':=' c 'in' k" := (bind c (fun x => match x with pat => k end))
  (at level 10, pat pattern, c at level 100, k at level 200) : cxx_scope.
Notation "c ';;' k" := (bind c (fun _ => k))
  (at level 100, k at level 200, right associativity) : cxx_scope.
Local Open Scope cxx_scope.

Definition result_of {A} (c : M A) : A := fst c.
Definition trace_of {A} (c : M A) : list event := snd c.

(** Modelled from the spec: [iware::detail::quickscope_wrapper]
    (infoware/detail/scope.hpp is not among the sources) is the scope
    guard of the spec's scoped-acquisition-with-guaranteed-release
    discipline: the callable it holds runs when the enclosing scope is
    left, on every path.  [body] is the rest of the scope after the
    declaration of the guard. *)
Definition quickscope_wrapper {A} (on_exit : M unit) (body : M A) : M A :=
  let* r := body in on_exit ;; ret r.

(** The same guard when its lambda captures a local by reference and the
    local is assigned after the guard is declared: the lambda sees the
    value the local has when the scope is left.  [body] returns that
    value next to its result. *)
Definition quickscope_wrapper_ref {L A} (on_exit : L -> M unit) (body : M (L * A)) : M A :=
  let* '(l, r) := body in on_exit l ;; ret r.

(** Modelled from the spec: [std::unique_ptr<T, iware::detail::release_deleter>]
    (infoware/detail/memory.hpp is not among the sources) owns a COM
    interface pointer and calls its [Release] when the scope is left. *)
Definition unique_ptr_release {A} (r : resource) (body : M A) : M A :=
  quickscope_wrapper (emit (EvRelease r)) body.

(** ** The platform *)

(** The fields of [RTL_OSVERSIONINFOW] the file reads, each a [DWORD]. *)
Record RTL_OSVERSIONINFOW := {
  dwMajorVersion : Z;
  dwMinorVersion : Z;
  dwBuildNumber : Z
}.

(** Modelled from the spec: the aggregate result [OS_info_t]
    (infoware/system.hpp is not among the sources), with the field names
    of the spec's data model, in the order the aggregator fills them. *)
Record OS_info_t := {
  family_name : cxx_string;
  full_name : cxx_string;
  major_version : Z;
  minor_version : Z;
  os_build_number : Z;     (* the spec's build_number: the kernel-reported build *)
  patch_number : Z         (* what build_number() returns *)
}.

(** The answers of the foreign calls.  Status codes are [LSTATUS] or
    [HRESULT] values as signed integers. *)
Record win32 := {
  (* ntdll *)
  GetModuleHandleA_ntdll : bool;          (* the module handle is non-null *)
  GetProcAddress_RtlGetVersion : bool;    (* the export is found *)
  RtlGetVersion_out : RTL_OSVERSIONINFOW; (* what the call writes *)
  (* registry, key Software\Microsoft\Windows NT\CurrentVersion *)
  RegOpenKeyExA_out : Z * positive;       (* status; handle stored when the status is 0 *)
  RegQueryValueExA_out : string -> option nat -> Z * nat * cxx_string;
    (* value name, size of the data buffer (None: lpData is null) |->
       status, size stored in *lpcbData, bytes stored in the buffer *)
  (* the legacy resolver version_name(), defined outside this file *)
  version_name_out : cxx_string;
  (* COM and WMI *)
  CoInitializeEx_out : Z -> Z;            (* concurrency model |-> HRESULT *)
  CoInitializeSecurity_out : Z;
  CoCreateInstance_out : Z;
  ConnectServer_out : Z;
  CoSetProxyBlanket_out : Z;
  ExecQuery_out : Z;
  query_rows : list (list Z)              (* the Name BSTR of each object the iterator yields *)
}.

Definition ERROR_SUCCESS : Z := 0.
Definition ERROR_FILE_NOT_FOUND : Z := 2.
Definition ERROR_MORE_DATA : Z := 234.

Definition COINIT_MULTITHREADED : Z := 0.
Definition COINIT_APARTMENTTHREADED : Z := 2.
Definition RPC_E_CHANGED_MODE : Z := 0x80010106 - 2 ^ 32.
Definition RPC_E_TOO_LATE : Z := 0x80010119 - 2 ^ 32.
Definition FAILED (hr : Z) : bool := hr <? 0.

(** A registry whose values do not change during the call, answering as
    the documentation of [RegQueryValueExA] says: the value's bytes as
    the ANSI entry point reports them, keyed by value name. *)
Definition registry_query (values : gmap string cxx_string)
    (name : string) (buffer : option nat) : Z * nat * cxx_string :=
  match values !! name with
  | None => (ERROR_FILE_NOT_FOUND, 0%nat, [])
  | Some data =>
      match buffer with
      | None => (ERROR_SUCCESS, length data, [])
      | Some size =>
          if (length data <=? size)%nat then (ERROR_SUCCESS, length data, data)
          else (ERROR_MORE_DATA, length data, [])
      end
  end.

(** A machine described by its kernel version, its registry values and
    the answer of the legacy resolver; the key opens as handle [h].
    The COM side answers with success and no rows. *)
Definition machine (version : option RTL_OSVERSIONINFOW) (h : option positive)
    (values : gmap string cxx_string) (legacy : cxx_string) : win32 :=
  {| GetModuleHandleA_ntdll := true;
     GetProcAddress_RtlGetVersion := bool_decide (is_Some version);
     RtlGetVersion_out :=
       default {| dwMajorVersion := 0; dwMinorVersion := 0; dwBuildNumber := 0 |} version;
     RegOpenKeyExA_out := match h with Some h => (ERROR_SUCCESS, h) | None => (ERROR_FILE_NOT_FOUND, 1%positive) end;
     RegQueryValueExA_out := registry_query values;
     version_name_out := legacy;
     CoInitializeEx_out := fun _ => 0;
     CoInitializeSecurity_out := 0;
     CoCreateInstance_out := 0;
     ConnectServer_out := 0;
     CoSetProxyBlanket_out := 0;
     ExecQuery_out := 0;
     query_rows := [] |}.

Section Platform.

Variable api : win32.

(** *** Registry calls *)

(** [RegOpenKeyExA(HKEY_LOCAL_MACHINE, ..., KEY_READ, &hkey)]: the status,
    and the value of [hkey] afterwards (0 is the null handle; it is
    written only on success). *)
Definition RegOpenKeyExA (hkey : Z) : M (Z * Z) :=
  let '(status, h) := RegOpenKeyExA_out api in
  if status =? 0 then emit (EvAcquire (RegKey h)) ;; ret (status, Z.pos h)
  else ret (status, hkey).

Definition RegCloseKey (hkey : Z) : M unit :=
  match hkey with
  | Z.pos h => emit (EvRelease (RegKey h))
  | _ => ret tt
  end.

Definition RegQueryValueExA (name : string) (buffer : option nat) : M (Z * nat * cxx_string) :=
  emit (EvRegQuery name (bool_decide (is_Some buffer))) ;;
  ret (RegQueryValueExA_out api name buffer).

(** *** [build_number] (lines 85-111) *)

(** The source declares two scope guards, both under the name
    [hkey_closer], in the one block of the function: one before the key
    is opened (line 87, which closes [hkey] if it is non-null when the
    function is left) and one after (line 91).  A C++ compiler refuses
    the second declaration as a redefinition, so the file as it stands
    has no build in which both guards run; the embedding follows the
    lines as written and keeps both, the one of line 91 as the inner
    scope.  How often [build_number] closes the key therefore depends on
    this reading, and no theorem below is about it; the value returned,
    the queries made and the path of a key that does not open are the
    same with either guard alone.  [ubr] is the four zero bytes
    of the [DWORD] the first query writes into. *)
Definition build_number : M Z :=
  emit (EvCall "build_number") ;;
  let hkey := 0 in
  quickscope_wrapper_ref
    (fun hkey => if negb (hkey =? 0) then RegCloseKey hkey else ret tt)   (* line 87 *)
    (let* '(status, hkey) := RegOpenKeyExA hkey in
     let* r :=
       if negb (status =? 0) then ret 0
       else
         quickscope_wrapper (RegCloseKey hkey)                            (* line 91 *)
           (let ubr := string_of_size 4 in
            let* '(status, ubr_size, bytes) := RegQueryValueExA "UBR" (Some 4%nat) in
            if status =? 0 then ret (le_decode (store ubr bytes))
            else
              let* '(status, buildlabex_size, _) := RegQueryValueExA "BuildLabEx" None in
              if negb (status =? 0) then ret 0
              else
                let buildlabex := string_of_size buildlabex_size in
                let* '(status, _, bytes) := RegQueryValueExA "BuildLabEx" (Some buildlabex_size) in
                if negb (status =? 0) then ret 0
                else
                  let buildlabex := store buildlabex bytes in
                  let '(token, ctx) := strtok_r (c_str buildlabex) (str ".") in
                  let '(token, ctx) := strtok_r ctx (str ".") in
                  ret (match token with
                       | Some token => strtoul token
                       | None => 0
                       end)) in
     ret (hkey, r)).

(** *** [version_name_reg] (lines 113-127) *)

Definition version_name_reg : M cxx_string :=
  emit (EvCall "version_name_reg") ;;
  let hkey := 0 in
  let* '(status, hkey) := RegOpenKeyExA hkey in
  if negb (status =? 0) then ret []
  else
    quickscope_wrapper (RegCloseKey hkey)
      (let* '(status, vname_size, _) := RegQueryValueExA "ProductName" None in
       if negb (status =? 0) then ret []
       else
         let vname := string_of_size vname_size in
         let* '(status, _, bytes) := RegQueryValueExA "ProductName" (Some vname_size) in
         if negb (status =? 0) then ret []
         else ret (store vname bytes)).

(** *** [version_name_wmi] (lines 27-83) *)

(** Modelled from the spec: [iware::detail::narrowen_bstring]
    (infoware/detail/winstring.hpp is not among the sources) converts
    the wide string of a variant to a narrow string. *)
Variable narrowen_bstring : list Z -> cxx_string.

Definition CoInitializeEx (model : Z) : M Z :=
  let hr := CoInitializeEx_out api model in
  (if FAILED hr then ret tt else emit (EvAcquire ComLibrary)) ;; ret hr.

Definition CoUninitialize : M unit := emit (EvRelease ComLibrary).

Definition CoCreateInstance : M Z :=
  let hr := CoCreateInstance_out api in
  (if FAILED hr then ret tt else emit (EvAcquire WbemLocator)) ;; ret hr.

Definition ConnectServer : M Z :=
  let hr := ConnectServer_out api in
  (if FAILED hr then ret tt else emit (EvAcquire WbemServices)) ;; ret hr.

Definition ExecQuery : M Z :=
  let hr := ExecQuery_out api in
  (if FAILED hr then ret tt else emit (EvAcquire QueryIterator)) ;; ret hr.

(** [value->Get(L"Name", 0, &val, 0, 0)] on the i-th object: [val.bstrVal]
    afterwards. *)
Definition Get (i : nat) (name : list Z) : M (list Z) :=
  emit (EvAcquire (VariantBox i)) ;; ret name.

Definition VariantClear (i : nat) : M unit := emit (EvRelease (VariantBox i)).

(** The loop of lines 63-77 over the objects [Next] still has to hand
    out; [i] counts the objects handed out so far.  With no object left
    [Next] stores 0 in [iter_result] and the loop is left.  The loop
    condition [query_iterator] is the non-null pointer of a successful
    [ExecQuery] and stays true. *)
Fixpoint drain (rows : list (list Z)) (i : nat) (ret_ : cxx_string) : M cxx_string :=
  match rows with
  | [] => ret ret_
  | name :: rows' =>
      emit (EvAcquire (ClassObject i)) ;;                       (* Next *)
      let* ret_ :=
        unique_ptr_release (ClassObject i)                      (* value *)
          (let* bstrVal := Get i name in
           quickscope_wrapper (VariantClear i)                  (* val_destructor *)
             (ret (narrowen_bstring bstrVal))) in
      drain rows' (S i) ret_
  end.

Definition version_name_wmi : M cxx_string :=
  emit (EvCall "version_name_wmi") ;;
  let* err := CoInitializeEx COINIT_MULTITHREADED in
  let* err := if err =? RPC_E_CHANGED_MODE
              then CoInitializeEx COINIT_APARTMENTTHREADED
              else ret err in
  if FAILED err then ret []
  else
    quickscope_wrapper CoUninitialize                           (* com_uninitialiser *)
      (let init_result := CoInitializeSecurity_out api in
       if FAILED init_result && negb (init_result =? RPC_E_TOO_LATE) then ret []
       else
         let* hr := CoCreateInstance in
         if FAILED hr then ret []
         else
           unique_ptr_release WbemLocator                       (* wbem_loc *)
             (let* hr := ConnectServer in
              if FAILED hr then ret []
              else
                unique_ptr_release WbemServices                 (* wbem_services *)
                  (if FAILED (CoSetProxyBlanket_out api) then ret []
                   else
                     let* hr := ExecQuery in
                     if FAILED hr then ret []
                     else
                       unique_ptr_release QueryIterator         (* query_iterator *)
                         (let* ret_ := drain (query_rows api) 0 [] in
                          match find_char ret_ "|" with
                          | Some sep => ret (resize ret_ sep)
                          | None => ret ret_
                          end)))).

(** *** [iware::system::OS_info] (lines 131-170) *)

(** Modelled from the spec: the legacy version-name resolver
    [version_name()] is called here and defined elsewhere; it takes no
    input and returns a display string. *)
Definition version_name : M cxx_string :=
  emit (EvCall "version_name") ;; ret (version_name_out api).

(** The initialiser of the function-local static runs on the first call
    only (lines 135-140): the pointer, and the process state afterwards. *)
Definition static_pRtlGetVersion (p : process) : bool * process :=
  match pRtlGetVersion p with
  | Some resolved => (resolved, p)
  | None =>
      let resolved :=
        if GetModuleHandleA_ntdll api then GetProcAddress_RtlGetVersion api else false in
      (resolved, {| pRtlGetVersion := Some resolved |})
  end.

Definition RtlGetVersion (info : RTL_OSVERSIONINFOW) : RTL_OSVERSIONINFOW :=
  let out := RtlGetVersion_out api in
  {| dwMajorVersion := to_DWORD (dwMajorVersion out);
     dwMinorVersion := to_DWORD (dwMinorVersion out);
     dwBuildNumber := to_DWORD (dwBuildNumber out) |}.

Definition OS_info (p : process) : M (OS_info_t * process) :=
  let '(pRtlGetVersion, p) := static_pRtlGetVersion p in
  let os_version_info := {| dwMajorVersion := 0; dwMinorVersion := 0; dwBuildNumber := 0 |} in
  let os_version_info :=
    if pRtlGetVersion then RtlGetVersion os_version_info else os_version_info in
  let* win_name :=
    if dwMajorVersion os_version_info <? 10 then version_name
    else
      let* win_name := version_name_reg in
      (* Fix for win11 *)
      if (dwMajorVersion os_version_info =? 10)
         && (dwMinorVersion os_version_info =? 0)
         && (22000 <=? dwBuildNumber os_version_info)
      then
        match find win_name (str " 10") with
        | Some pos => ret (<[(pos + 2)%nat := "1"%char]> win_name)
        | None => ret win_name
        end
      else ret win_name in
  let* patch := build_number in
  ret ({| family_name := str "Windows NT";
          full_name := win_name;
          major_version := dwMajorVersion os_version_info;
          minor_version := dwMinorVersion os_version_info;
          os_build_number := dwBuildNumber os_version_info;
          patch_number := patch |}, p).

End Platform.

(** * Vocabulary of the properties *)

(** [hay] has an occurrence of [needle]. *)
Definition contains (hay needle : cxx_string) : Prop :=
  exists pre post, hay = pre ++ needle ++ post.

(** [needle] occurs in [hay] at offset [pos] and at no smaller offset. *)
Definition first_occurrence (hay needle : cxx_string) (pos : nat) : Prop :=
  (exists pre post, hay = pre ++ needle ++ post /\ length pre = pos) /\
  (forall pre' post', hay = pre' ++ needle ++ post' -> (pos <= length pre')%nat).

(** Counting events of a log. *)
Fixpoint count_if (f : event -> bool) (tr : list event) : nat :=
  match tr with
  | [] => 0%nat
  | e :: tr' => ((if f e then 1 else 0) + count_if f tr')%nat
  end.

Definition is_call (fn : string) (e : event) : bool :=
  match e with EvCall fn' => String.eqb fn fn' | _ => false end.

Definition is_query (value : string) (e : event) : bool :=
  match e with EvRegQuery value' _ => String.eqb value value' | _ => false end.

Definition is_open (h : positive) (e : event) : bool :=
  match e with EvAcquire (RegKey h') => Pos.eqb h h' | _ => false end.

Definition is_close (h : positive) (e : event) : bool :=
  match e with EvRelease (RegKey h') => Pos.eqb h h' | _ => false end.

Definition is_acquire (r : resource) (e : event) : bool :=
  match e with EvAcquire r' => bool_decide (r = r') | _ => false end.

Definition is_release (r : resource) (e : event) : bool :=
  match e with EvRelease r' => bool_decide (r = r') | _ => false end.

(** How often a function was entered, a registry value queried, the key
    handle opened and closed. *)
Definition calls (fn : string) (tr : list event) : nat := count_if (is_call fn) tr.
Definition queries (value : string) (tr : list event) : nat := count_if (is_query value) tr.
Definition opens (h : positive) (tr : list event) : nat := count_if (is_open h) tr.
Definition closes (h : positive) (tr : list event) : nat := count_if (is_close h) tr.

(** Replaying the acquisitions and releases of a log on the stack of
    resources held: a release must give back the resource acquired
    last.  [None]: something was released that was not held, or out of
    order. *)
Fixpoint live_after (tr : list event) (held : list resource) : option (list resource) :=
  match tr with
  | [] => Some held
  | EvAcquire r :: tr' => live_after tr' (r :: held)
  | EvRelease r :: tr' =>
      match held with
      | r' :: held' => if bool_decide (r = r') then live_after tr' held' else None
      | [] => None
      end
  | _ :: tr' => live_after tr' held
  end.

(** A log that leaves the stack of held resources as it found it. *)
Definition balanced (tr : list event) : Prop :=
  forall held, live_after tr held = Some held.

(** Every resource the log acquires is released by it, exactly as often. *)
Definition releases_all (tr : list event) : Prop :=
  forall r, count_if (is_acquire r) tr = count_if (is_release r) tr.

(** The spec's tokenization, in its words: the string is cut at every
    delimiter into fields, and the tokens are the fields that are not
    empty. *)
Fixpoint fields (d : ascii) (s : cxx_string) : list cxx_string :=
  match s with
  | [] => [[]]
  | c :: s' =>
      if ascii_eqb c d then [] :: fields d s'
      else match fields d s' with
           | f :: fs => (c :: f) :: fs
           | [] => [[c]]
           end
  end.

Definition nonempty (s : cxx_string) : bool :=
  match s with [] => false | _ :: _ => true end.

Definition tokens (d : ascii) (s : cxx_string) : list cxx_string :=
  List.filter nonempty (fields d s).

(** The second token as an unsigned integer, 0 without one. *)
Definition second_token_value (s : cxx_string) : Z :=
  match tokens "." s with
  | _ :: token :: _ => strtoul token
  | _ => 0
  end.

(** The value of a string of decimal digits. *)
Fixpoint decimal_value (ds : cxx_string) : Z :=
  match ds with
  | [] => 0
  | c :: ds' => (byte_val c - 48) * 10 ^ Z.of_nat (length ds') + decimal_value ds'
  end.

Definition is_digit (c : ascii) : Prop := 48 <= byte_val c <= 57.

(** The status the WMI resolver has in [err] after lines 28-30. *)
Definition com_initialised (api : win32) : Z :=
  let err := CoInitializeEx_out api COINIT_MULTITHREADED in
  if err =? RPC_E_CHANGED_MODE then CoInitializeEx_out api COINIT_APARTMENTTHREADED
  else err.

(** Every step of the WMI session up to the query succeeds (or, for the
    security setup, was done before). *)
Definition wmi_session_ok (api : win32) : Prop :=
  0 <= com_initialised api /\
  (0 <= CoInitializeSecurity_out api \/ CoInitializeSecurity_out api = RPC_E_TOO_LATE) /\
  0 <= CoCreateInstance_out api /\
  0 <= ConnectServer_out api /\
  0 <= CoSetProxyBlanket_out api /\
  0 <= ExecQuery_out api.

(** The string the WMI resolver retrieves: the narrowed name of the last
    object the iterator yields, empty without one. *)
Definition retrieved_name (api : win32) (narrowen_bstring : list Z -> cxx_string) : cxx_string :=
  match last (query_rows api) with
  | Some name => narrowen_bstring name
  | None => []
  end.

(** Wide strings of chars below 256 and their narrowing, for the
    examples. *)
Definition wide (s : cxx_string) : list Z := map byte_val s.
Definition narrow (w : list Z) : cxx_string := map (fun u => ascii_of_N (Z.to_N u)) w.

(** A machine whose WMI session succeeds and yields [rows]. *)
Definition wmi_machine (rows : list (list Z)) : win32 :=
  {| GetModuleHandleA_ntdll := true;
     GetProcAddress_RtlGetVersion := false;
     RtlGetVersion_out := {| dwMajorVersion := 0; dwMinorVersion := 0; dwBuildNumber := 0 |};
     RegOpenKeyExA_out := (ERROR_FILE_NOT_FOUND, 1%positive);
     RegQueryValueExA_out := registry_query ∅;
     version_name_out := [];
     CoInitializeEx_out := fun _ => 0;
     CoInitializeSecurity_out := 0;
     CoCreateInstance_out := 0;
     ConnectServer_out := 0;
     CoSetProxyBlanket_out := 0;
     ExecQuery_out := 0;
     query_rows := rows |}.

(** The kernel version query cannot be resolved for this call: the
    static holds a null pointer, or it is still to be initialised and
    the module or its export is not found. *)
Definition unresolved (api : win32) (p : process) : Prop :=
  match pRtlGetVersion p with
  | Some resolved => resolved = false
  | None => GetModuleHandleA_ntdll api = false \/ GetProcAddress_RtlGetVersion api = false
  end.

(** The Windows 11 test of lines 152-154. *)
Definition is_win11 (r : OS_info_t) : Prop :=
  major_version r = 10 /\ minor_version r = 0 /\ 22000 <= os_build_number r.

(** The result and the log of one call of the aggregator. *)
Definition info_of (api : win32) (p : process) : OS_info_t := fst (result_of (OS_info api p)).
Definition process_after (api : win32) (p : process) : process := snd (result_of (OS_info api p)).
Definition log_of (api : win32) (p : process) : list event := trace_of (OS_info api p).

(** The name the aggregator resolves before the correction. *)
Definition resolved_name (api : win32) (p : process) : cxx_string :=
  if major_version (info_of api p) <? 10 then version_name_out api
  else result_of (version_name_reg api).


(** What the aggregator has in [os_version_info] after lines 141-144. *)
Definition kernel_version (api : win32) (p : process) : RTL_OSVERSIONINFOW :=
  let zero := {| dwMajorVersion := 0; dwMinorVersion := 0; dwBuildNumber := 0 |} in
  if fst (static_pRtlGetVersion api p) then RtlGetVersion api zero else zero.

(** The name after lines 151-161. *)
Definition corrected_name (v : RTL_OSVERSIONINFOW) (win_name : cxx_string) : cxx_string :=
  if (dwMajorVersion v =? 10) && (dwMinorVersion v =? 0) && (22000 <=? dwBuildNumber v)
  then match find win_name (str " 10") with
       | Some pos => <[(pos + 2)%nat := "1"%char]> win_name
       | None => win_name
       end
  else win_name.


(** The key opens and [h] is its handle. *)
Definition key_opens (api : win32) (h : positive) : Prop :=
  RegOpenKeyExA_out api = (ERROR_SUCCESS, h).

(** The key holds [data] under [name]: queries for [name] are answered
    as by a registry with that value. *)
Definition holds_value (api : win32) (name : string) (data : cxx_string) : Prop :=
  forall buffer,
    RegQueryValueExA_out api name buffer = registry_query {[name := data]} name buffer.

(** Sample machines: Windows 11 and Windows 10 kernels over the same
    registry, and a machine where [RtlGetVersion] cannot be resolved. *)
Definition sample_values : gmap string cxx_string :=
  <["ProductName" := str "Windows 10 Pro"]>
    (<["BuildLabEx" := str "22000.1.amd64fre.co_release.210604-1628"]> ∅).

Definition win11_machine : win32 :=
  machine (Some {| dwMajorVersion := 10; dwMinorVersion := 0; dwBuildNumber := 22000 |})
          (Some 7%positive) sample_values (str "legacy").

Definition win10_machine : win32 :=
  machine (Some {| dwMajorVersion := 10; dwMinorVersion := 0; dwBuildNumber := 19041 |})
          (Some 7%positive) sample_values (str "legacy").

Definition unresolved_machine : win32 :=
  machine None (Some 7%positive) sample_values (str "legacy").




(** The sample registry with the display name stored NUL-terminated, and
    with the update build revision present. *)
Definition terminated_values : gmap string cxx_string :=
  <["ProductName" := str "Windows 10 Pro" ++ [NUL]]> sample_values.

Definition terminated_machine : win32 :=
  machine (Some {| dwMajorVersion := 10; dwMinorVersion := 0; dwBuildNumber := 22000 |})
          (Some 7%positive) terminated_values (str "legacy").

Definition ubr_machine : win32 :=
  machine (Some {| dwMajorVersion := 10; dwMinorVersion := 0; dwBuildNumber := 19041 |})
          (Some 7%positive) (<["UBR" := dword_bytes 345]> sample_values) (str "legacy").


(** Machines without the update build revision whose build label is
    [label]. *)
Definition fallback_machine (label : cxx_string) : win32 :=
  machine (Some {| dwMajorVersion := 6; dwMinorVersion := 3; dwBuildNumber := 9600 |})
          (Some 7%positive) (<["BuildLabEx" := label]> ∅) (str "legacy").


(** A machine whose key opens but holds neither value. *)
Definition bare_machine : win32 :=
  machine (Some {| dwMajorVersion := 6; dwMinorVersion := 3; dwBuildNumber := 9600 |})
          (Some 7%positive) ∅ (str "legacy").



(** The status of opening the key, the status of a query, and the size
    the size query reports. *)
Definition open_status (api : win32) : Z := fst (RegOpenKeyExA_out api).

Definition query_status (api : win32) (name : string) (buffer : option nat) : Z :=
  fst (fst (RegQueryValueExA_out api name buffer)).

Definition reported_size (api : win32) (name : string) : nat :=
  snd (fst (RegQueryValueExA_out api name None)).

(** The bytes the fill query stores when given a buffer of the reported
    size. *)
Definition filled_bytes (api : win32) (name : string) : cxx_string :=
  snd (RegQueryValueExA_out api name (Some (reported_size api name))).

(** Some step of the WMI session fails: the tests of lines 31, 37, 41,
    47, 51 and 58. *)
Definition wmi_step_failed (api : win32) : Prop :=
  com_initialised api < 0 \/
  (CoInitializeSecurity_out api < 0 /\ CoInitializeSecurity_out api <> RPC_E_TOO_LATE) \/
  CoCreateInstance_out api < 0 \/
  ConnectServer_out api < 0 \/
  CoSetProxyBlanket_out api < 0 \/
  ExecQuery_out api < 0.

(** A machine whose key cannot be opened. *)
Definition locked_machine : win32 :=
  machine (Some {| dwMajorVersion := 10; dwMinorVersion := 0; dwBuildNumber := 19041 |})
          None sample_values (str "legacy").

(** A machine whose update build revision is stored as eight bytes. *)
Definition wide_ubr_machine : win32 :=
  machine (Some {| dwMajorVersion := 10; dwMinorVersion := 0; dwBuildNumber := 19041 |})
          (Some 7%positive)
          (<["UBR" := dword_bytes 345 ++ dword_bytes 0]>
             (<["BuildLabEx" := str "19041.1.amd64fre.vb_release.191206-1406"]> ∅))
          (str "legacy").

(** A machine that reports ProductName as 8 bytes and fills only 3. *)
Definition short_fill_machine : win32 :=
  {| GetModuleHandleA_ntdll := true;
     GetProcAddress_RtlGetVersion := false;
     RtlGetVersion_out := {| dwMajorVersion := 0; dwMinorVersion := 0; dwBuildNumber := 0 |};
     RegOpenKeyExA_out := (ERROR_SUCCESS, 7%positive);
     RegQueryValueExA_out := fun name buffer =>
       match buffer with
       | None => (ERROR_SUCCESS, 8%nat, [])
       | Some _ => (ERROR_SUCCESS, 3%nat, str "Win")
       end;
     version_name_out := [];
     CoInitializeEx_out := fun _ => 0;
     CoInitializeSecurity_out := 0;
     CoCreateInstance_out := 0;
     ConnectServer_out := 0;
     CoSetProxyBlanket_out := 0;
     ExecQuery_out := 0;
     query_rows := [] |}.

(** A machine on which connecting to the WMI namespace fails. *)
Definition no_wmi_machine : win32 :=
  {| GetModuleHandleA_ntdll := true;
     GetProcAddress_RtlGetVersion := false;
     RtlGetVersion_out := {| dwMajorVersion := 0; dwMinorVersion := 0; dwBuildNumber := 0 |};
     RegOpenKeyExA_out := (ERROR_FILE_NOT_FOUND, 1%positive);
     RegQueryValueExA_out := registry_query ∅;
     version_name_out := [];
     CoInitializeEx_out := fun _ => 1;
     CoInitializeSecurity_out := RPC_E_TOO_LATE;
     CoCreateInstance_out := 0;
     ConnectServer_out := -2147217394;
     CoSetProxyBlanket_out := 0;
     ExecQuery_out := 0;
     query_rows := [wide (str "Microsoft Windows 10 Pro")] |}.

(** * Lemmas *)

(** ** Strings *)

Lemma ascii_eqb_eq (a b : ascii) : ascii_eqb a b = true <-> a = b.
Proof. apply Ascii.eqb_eq. Qed.

Lemma ascii_eqb_refl (a : ascii) : ascii_eqb a a = true.
Proof. apply Ascii.eqb_refl. Qed.

Lemma ascii_eqb_neq (a b : ascii) : ascii_eqb a b = false <-> a <> b.
Proof. apply Ascii.eqb_neq. Qed.

Lemma starts_with_spec (needle hay : cxx_string) :
  starts_with needle hay = true <-> exists post, hay = needle ++ post.
Proof.
  revert hay. induction needle as [|a needle IH]; intros hay; simpl.
  - split; [intros _; by exists hay | done].
  - destruct hay as [|b hay].
    + split; [done | intros [post Hpost]; discriminate Hpost].
    + rewrite andb_true_iff, ascii_eqb_eq, IH. split.
      * intros [-> [post ->]]. by exists post.
      * intros [post Hpost]. injection Hpost as -> ->. eauto.
Qed.

Lemma find_from_Some (needle hay : cxx_string) (k pos : nat) :
  find_from needle hay k = Some pos ->
  exists pre post,
    hay = pre ++ needle ++ post /\ pos = (k + length pre)%nat /\
    forall pre' post', hay = pre' ++ needle ++ post' -> (length pre <= length pre')%nat.
Proof.
  revert k. induction hay as [|c hay IH]; intros k; simpl.
  - destruct (starts_with needle []) eqn:Hs; [|done].
    intros [= <-]. apply starts_with_spec in Hs as [post Hpost].
    exists [], post. simpl. repeat split; [done | lia | intros; lia].
  - destruct (starts_with needle (c :: hay)) eqn:Hs.
    + intros [= <-]. apply starts_with_spec in Hs as [post Hpost].
      exists [], post. simpl. repeat split; [done | lia | intros; lia].
    + intros Hfind. destruct (IH _ Hfind) as (pre & post & -> & -> & Hmin).
      exists (c :: pre), post. simpl. repeat split; [lia |].
      intros pre' post' Heq. destruct pre' as [|c' pre'].
      * simpl in Heq. assert (starts_with needle (c :: pre ++ needle ++ post) = true) as Hs'.
        { apply starts_with_spec. by exists post'. }
        congruence.
      * simpl in Heq. injection Heq as _ Heq. specialize (Hmin _ _ Heq). simpl. lia.
Qed.

Lemma find_from_None (needle hay : cxx_string) (k : nat) :
  find_from needle hay k = None -> ~ contains hay needle.
Proof.
  revert k. induction hay as [|c hay IH]; intros k; simpl.
  - destruct (starts_with needle []) eqn:Hs; [done|]. intros _ (pre & post & Heq).
    destruct pre; [|discriminate Heq]. simpl in Heq.
    assert (starts_with needle [] = true) by (apply starts_with_spec; eauto). congruence.
  - destruct (starts_with needle (c :: hay)) eqn:Hs; [done|].
    intros Hfind (pre & post & Heq). destruct pre as [|c' pre]; simpl in Heq.
    + assert (starts_with needle (c :: hay) = true) by (apply starts_with_spec; eauto).
      congruence.
    + injection Heq as _ Heq. apply (IH _ Hfind). by exists pre, post.
Qed.

Lemma find_Some (hay needle : cxx_string) (pos : nat) :
  find hay needle = Some pos -> first_occurrence hay needle pos.
Proof.
  intros H. apply find_from_Some in H as (pre & post & Heq & -> & Hmin).
  split; [by exists pre, post | done].
Qed.

Lemma find_contains (hay needle : cxx_string) :
  is_Some (find hay needle) <-> contains hay needle.
Proof.
  split.
  - intros [pos H]. apply find_Some in H as [(pre & post & Heq & _) _]. by exists pre, post.
  - intros Hc. destruct (find hay needle) eqn:Hf; [done|].
    by apply find_from_None in Hf.
Qed.

(** The char written by the correction replaces the "0" of the first
    " 10", so the string changes. *)
Lemma find_space_10 (name : cxx_string) (pos : nat) :
  find name (str " 10") = Some pos ->
  name !! (pos + 2)%nat = Some "0"%char /\ (pos + 2 < length name)%nat.
Proof.
  intros H. apply find_Some in H as [(pre & post & -> & <-) _].
  split.
  - rewrite lookup_app_r by lia. replace (length pre + 2 - length pre)%nat with 2%nat by lia.
    done.
  - rewrite length_app. simpl. lia.
Qed.

(** ** The aggregator *)

Ltac unfold_calls :=
  unfold version_name_reg, build_number, version_name, quickscope_wrapper,
    quickscope_wrapper_ref, unique_ptr_release, RegOpenKeyExA, RegQueryValueExA,
    RegCloseKey, bind, emit, ret in *.

(** Case analysis on the next answer of the registry. *)
Ltac registry_step :=
  match goal with
  | |- context [RegOpenKeyExA_out ?api] =>
      destruct (RegOpenKeyExA_out api) as [? ?]
  | |- context [RegQueryValueExA_out ?api ?name ?buffer] =>
      destruct (RegQueryValueExA_out api name buffer) as [[? ?] ?]
  | |- context [?status =? 0] => is_var status; destruct (status =? 0)
  | |- context [strtok_r ?s ?delims] => destruct (strtok_r s delims) as [? ?]
  end;
  cbn.

Ltac registry_cases := unfold_calls; cbn; repeat registry_step.

Lemma count_if_app (f : event -> bool) (t1 t2 : list event) :
  count_if f (t1 ++ t2) = (count_if f t1 + count_if f t2)%nat.
Proof. induction t1 as [|e t1 IH]; simpl; [done | rewrite IH; lia]. Qed.

(** The registry resolvers do not enter the name resolvers again. *)
Lemma version_name_reg_calls (api : win32) :
  calls "version_name" (trace_of (version_name_reg api)) = 0%nat /\
  calls "version_name_reg" (trace_of (version_name_reg api)) = 1%nat.
Proof. unfold trace_of, calls. by registry_cases. Qed.

Lemma build_number_calls (api : win32) :
  calls "version_name" (trace_of (build_number api)) = 0%nat /\
  calls "version_name_reg" (trace_of (build_number api)) = 0%nat.
Proof. unfold trace_of, calls. by registry_cases. Qed.

(** One call of the aggregator, step by step. *)
Lemma OS_info_unfold (api : win32) (p : process) :
  OS_info api p =
  (({| family_name := str "Windows NT";
       full_name :=
         if dwMajorVersion (kernel_version api p) <? 10 then version_name_out api
         else corrected_name (kernel_version api p) (result_of (version_name_reg api));
       major_version := dwMajorVersion (kernel_version api p);
       minor_version := dwMinorVersion (kernel_version api p);
       os_build_number := dwBuildNumber (kernel_version api p);
       patch_number := result_of (build_number api) |},
    snd (static_pRtlGetVersion api p)),
   (if dwMajorVersion (kernel_version api p) <? 10 then [EvCall "version_name"]
    else trace_of (version_name_reg api)) ++ trace_of (build_number api)).
Proof.
  unfold OS_info, kernel_version, corrected_name, result_of, trace_of.
  destruct (static_pRtlGetVersion api p) as [resolved p']. cbn [fst snd].
  generalize (version_name_reg api) (build_number api). intros [name t1] [patch t2].
  set (v := if resolved then _ else _).
  unfold bind, ret, version_name, emit.
  destruct (dwMajorVersion v <? 10); cbn [fst snd].
  - by rewrite app_nil_r.
  - destruct ((dwMajorVersion v =? 10) && (dwMinorVersion v =? 0) && (22000 <=? dwBuildNumber v));
      cbn [fst snd]; [|by rewrite !app_nil_r].
    destruct (find name (str " 10")) eqn:Hf; cbn [fst snd]; by rewrite !app_nil_r.
Qed.

Lemma info_of_eq (api : win32) (p : process) :
  info_of api p =
  {| family_name := str "Windows NT";
     full_name :=
       if dwMajorVersion (kernel_version api p) <? 10 then version_name_out api
       else corrected_name (kernel_version api p) (result_of (version_name_reg api));
     major_version := dwMajorVersion (kernel_version api p);
     minor_version := dwMinorVersion (kernel_version api p);
     os_build_number := dwBuildNumber (kernel_version api p);
     patch_number := result_of (build_number api) |}.
Proof. unfold info_of, result_of. by rewrite OS_info_unfold. Qed.

Lemma log_of_eq (api : win32) (p : process) :
  log_of api p =
  (if dwMajorVersion (kernel_version api p) <? 10 then [EvCall "version_name"]
   else trace_of (version_name_reg api)) ++ trace_of (build_number api).
Proof. unfold log_of, trace_of. by rewrite OS_info_unfold. Qed.

Lemma process_after_eq (api : win32) (p : process) :
  process_after api p = snd (static_pRtlGetVersion api p).
Proof. unfold process_after, result_of. by rewrite OS_info_unfold. Qed.

(** Once the static is initialised it keeps its value. *)
Lemma static_pRtlGetVersion_again (api : win32) (p : process) :
  static_pRtlGetVersion api (snd (static_pRtlGetVersion api p)) =
  (fst (static_pRtlGetVersion api p), snd (static_pRtlGetVersion api p)).
Proof. unfold static_pRtlGetVersion. by destruct p as [[resolved|]]. Qed.

Lemma kernel_version_again (api : win32) (p : process) :
  kernel_version api (process_after api p) = kernel_version api p.
Proof.
  unfold kernel_version. by rewrite process_after_eq, static_pRtlGetVersion_again.
Qed.

Lemma corrected_name_cases (v : RTL_OSVERSIONINFOW) (name : cxx_string) :
  corrected_name v name = name \/
  exists pos, find name (str " 10") = Some pos /\
              corrected_name v name = <[(pos + 2)%nat := "1"%char]> name.
Proof.
  unfold corrected_name. destruct (_ && _); [|by left].
  destruct (find name (str " 10")) as [pos|] eqn:Hf; [right; by exists pos | by left].
Qed.

(** C9: the top-level query is deterministic in the system state it
    reads: a second call on the same platform, started in the process
    state the first call left behind, returns an [OS_info_t] equal in
    every field, makes the same calls, and leaves the process state as
    it found it. *)
Theorem C9_OS_info_deterministic (api : win32) (p : process) :
  info_of api (process_after api p) = info_of api p /\
  log_of api (process_after api p) = log_of api p /\
  process_after api (process_after api p) = process_after api p.
Proof.
  rewrite !info_of_eq, !log_of_eq, kernel_version_again. repeat split.
  rewrite !process_after_eq, static_pRtlGetVersion_again. done.
Qed.

(** C5: a kernel-reported major version below 10 resolves the name by
    the legacy resolver alone, one of 10 or above by the registry
    display-name resolver alone (followed by the correction, which
    rewrites at most one char); in each case the other resolver is not
    entered. *)
Theorem C5_name_path_by_major_version (api : win32) (p : process) :
  (major_version (info_of api p) < 10 ->
     full_name (info_of api p) = version_name_out api /\
     calls "version_name" (log_of api p) = 1%nat /\
     calls "version_name_reg" (log_of api p) = 0%nat) /\
  (10 <= major_version (info_of api p) ->
     calls "version_name" (log_of api p) = 0%nat /\
     calls "version_name_reg" (log_of api p) = 1%nat /\
     (full_name (info_of api p) = result_of (version_name_reg api) \/
      exists pos, full_name (info_of api p)
                  = <[pos := "1"%char]> (result_of (version_name_reg api)))).
Proof.
  pose proof (version_name_reg_calls api) as [Hr0 Hr1].
  pose proof (build_number_calls api) as [Hb0 Hb1].
  rewrite info_of_eq, log_of_eq. cbn [major_version full_name].
  unfold calls in *. rewrite !count_if_app, Hb0, Hb1.
  split; intros Hmajor.
  - apply Z.ltb_lt in Hmajor. rewrite Hmajor. done.
  - apply Z.ltb_ge in Hmajor. rewrite Hmajor, Hr0, Hr1. repeat split.
    destruct (corrected_name_cases (kernel_version api p) (result_of (version_name_reg api)))
      as [->|(pos & _ & ->)]; [by left | right; by eexists].
Qed.

Lemma build_number_no_ProductName (api : win32) :
  queries "ProductName" (trace_of (build_number api)) = 0%nat.
Proof. unfold trace_of, calls. by registry_cases. Qed.

Lemma kernel_version_unresolved (api : win32) (p : process) :
  unresolved api p ->
  kernel_version api p = {| dwMajorVersion := 0; dwMinorVersion := 0; dwBuildNumber := 0 |}.
Proof.
  unfold unresolved, kernel_version, static_pRtlGetVersion.
  destruct (pRtlGetVersion p) as [resolved|]; cbn [fst].
  - by intros ->.
  - intros [-> | ->]; [done | by destruct (GetModuleHandleA_ntdll api)].
Qed.

(** C3, as the code has it: when the kernel version query cannot be
    resolved, major version, minor version and build number are all 0,
    and the name is resolved by the legacy resolver; the registry
    display-name resolver is not entered and its value is not queried. *)
Theorem C3_unresolved_version_routes_to_legacy (api : win32) (p : process) :
  unresolved api p ->
  major_version (info_of api p) = 0 /\
  minor_version (info_of api p) = 0 /\
  os_build_number (info_of api p) = 0 /\
  full_name (info_of api p) = version_name_out api /\
  calls "version_name" (log_of api p) = 1%nat /\
  calls "version_name_reg" (log_of api p) = 0%nat /\
  queries "ProductName" (log_of api p) = 0%nat.
Proof.
  intros Hun. pose proof (build_number_calls api) as [Hb0 Hb1].
  pose proof (build_number_no_ProductName api) as Hq.
  rewrite info_of_eq, log_of_eq, (kernel_version_unresolved _ _ Hun).
  cbn [major_version minor_version os_build_number full_name dwMajorVersion].
  change (0 <? 10) with true. cbv iota.
  unfold calls, queries in *. rewrite !count_if_app, Hb0, Hb1, Hq. done.
Qed.

Lemma C3_unresolved_version_routes_to_legacy_witness :
  unresolved unresolved_machine fresh_process /\
  full_name (info_of unresolved_machine fresh_process) = str "legacy" /\
  calls "version_name_reg" (log_of unresolved_machine fresh_process) = 0%nat.
Proof.
  assert (unresolved unresolved_machine fresh_process) as Hun by (right; reflexivity).
  split; [exact Hun|].
  pose proof (C3_unresolved_version_routes_to_legacy unresolved_machine fresh_process Hun)
    as (_ & _ & _ & Hname & _ & Hreg & _).
  split; [exact Hname | exact Hreg].
Defined.

(** C3, as stated, fails: on a machine where the query cannot be
    resolved the three numbers are 0 but the registry display-name
    resolver is never entered. *)
Lemma C3_registry_path_not_attempted :
  unresolved unresolved_machine fresh_process /\
  ~ (major_version (info_of unresolved_machine fresh_process) = 0 /\
     minor_version (info_of unresolved_machine fresh_process) = 0 /\
     os_build_number (info_of unresolved_machine fresh_process) = 0 /\
     (0 < calls "version_name_reg" (log_of unresolved_machine fresh_process))%nat).
Proof.
  split; [right; reflexivity|].
  intros (_ & _ & _ & Hcalls). vm_compute in Hcalls. lia.
Qed.

(** ** The display-name correction *)

Lemma win11_test_spec (api : win32) (p : process) :
  ((dwMajorVersion (kernel_version api p) =? 10)
   && (dwMinorVersion (kernel_version api p) =? 0)
   && (22000 <=? dwBuildNumber (kernel_version api p))) = true
  <-> is_win11 (info_of api p).
Proof.
  rewrite info_of_eq. unfold is_win11. cbn [major_version minor_version os_build_number].
  rewrite !andb_true_iff, !Z.eqb_eq, Z.leb_le. tauto.
Qed.

Lemma resolved_name_eq (api : win32) (p : process) :
  resolved_name api p =
  if dwMajorVersion (kernel_version api p) <? 10 then version_name_out api
  else result_of (version_name_reg api).
Proof. unfold resolved_name. by rewrite info_of_eq. Qed.

Lemma full_name_eq (api : win32) (p : process) :
  full_name (info_of api p) =
  if dwMajorVersion (kernel_version api p) <? 10 then resolved_name api p
  else corrected_name (kernel_version api p) (resolved_name api p).
Proof.
  rewrite resolved_name_eq, info_of_eq. cbn [full_name].
  by destruct (dwMajorVersion (kernel_version api p) <? 10).
Qed.

(** What the correction does where it applies. *)
Lemma correction_fires (api : win32) (p : process) :
  is_win11 (info_of api p) ->
  contains (resolved_name api p) (str " 10") ->
  exists pos,
    first_occurrence (resolved_name api p) (str " 10") pos /\
    full_name (info_of api p) = <[(pos + 2)%nat := "1"%char]> (resolved_name api p) /\
    resolved_name api p !! (pos + 2)%nat = Some "0"%char /\
    full_name (info_of api p) !! (pos + 2)%nat = Some "1"%char.
Proof.
  intros Hwin Hcontains. rewrite full_name_eq.
  assert ((dwMajorVersion (kernel_version api p) <? 10) = false) as ->.
  { destruct Hwin as [Hmajor _]. rewrite info_of_eq in Hmajor. cbn in Hmajor.
    rewrite Hmajor. reflexivity. }
  apply win11_test_spec in Hwin. unfold corrected_name. rewrite Hwin.
  apply find_contains in Hcontains as [pos Hfind]. rewrite Hfind. exists pos.
  pose proof (find_space_10 _ _ Hfind) as [Hzero Hlt].
  split; [by apply find_Some|]. split; [done|]. split; [done|].
  by apply list_lookup_insert_eq.
Qed.

Lemma correction_skipped (api : win32) (p : process) :
  ~ (is_win11 (info_of api p) /\ contains (resolved_name api p) (str " 10")) ->
  full_name (info_of api p) = resolved_name api p.
Proof.
  intros Hnot. rewrite full_name_eq.
  destruct (dwMajorVersion (kernel_version api p) <? 10); [done|].
  unfold corrected_name.
  destruct (_ && _) eqn:Hwin; [|done]. apply win11_test_spec in Hwin.
  destruct (find (resolved_name api p) (str " 10")) as [pos|] eqn:Hfind; [|done].
  exfalso. apply Hnot. split; [done|]. apply find_contains. by exists pos.
Qed.

Lemma correction_applies_dec (api : win32) (p : process) :
  (is_win11 (info_of api p) /\ contains (resolved_name api p) (str " 10")) \/
  ~ (is_win11 (info_of api p) /\ contains (resolved_name api p) (str " 10")).
Proof.
  destruct ((dwMajorVersion (kernel_version api p) =? 10)
            && (dwMinorVersion (kernel_version api p) =? 0)
            && (22000 <=? dwBuildNumber (kernel_version api p))) eqn:Hwin.
  - apply win11_test_spec in Hwin.
    destruct (find (resolved_name api p) (str " 10")) as [pos|] eqn:Hfind.
    + left. split; [done|]. apply find_contains. by exists pos.
    + right. intros [_ Hc]. apply find_contains in Hc as [pos Hpos]. congruence.
  - right. intros [Hw _]. apply win11_test_spec in Hw. congruence.
Qed.

(** C1: the correction changes the resolved name if and only if the
    kernel reports major 10, minor 0 and a build of at least 22000 and
    the name contains " 10"; it then overwrites exactly one char, the
    "0" two places after the first occurrence, with "1".  "Windows 10
    Pro" becomes "Windows 11 Pro" at build 22000 and stays at build
    19041. *)
Theorem C1_win11_display_name_correction :
  (forall (api : win32) (p : process),
     (full_name (info_of api p) <> resolved_name api p
      <-> is_win11 (info_of api p) /\ contains (resolved_name api p) (str " 10")) /\
     (is_win11 (info_of api p) ->
      contains (resolved_name api p) (str " 10") ->
      exists pos,
        first_occurrence (resolved_name api p) (str " 10") pos /\
        full_name (info_of api p) = <[(pos + 2)%nat := "1"%char]> (resolved_name api p) /\
        length (full_name (info_of api p)) = length (resolved_name api p) /\
        resolved_name api p !! (pos + 2)%nat = Some "0"%char /\
        full_name (info_of api p) !! (pos + 2)%nat = Some "1"%char /\
        forall i, i <> (pos + 2)%nat ->
                  full_name (info_of api p) !! i = resolved_name api p !! i)) /\
  (resolved_name win11_machine fresh_process = str "Windows 10 Pro" /\
   full_name (info_of win11_machine fresh_process) = str "Windows 11 Pro") /\
  (resolved_name win10_machine fresh_process = str "Windows 10 Pro" /\
   full_name (info_of win10_machine fresh_process) = str "Windows 10 Pro").
Proof.
  split; [|split; split; reflexivity].
  intros api p. split.
  - split.
    + intros Hchanged.
      destruct (correction_applies_dec api p) as [H|H]; [done|].
      by apply correction_skipped in H.
    + intros [Hwin Hcontains] Heq.
      destruct (correction_fires api p Hwin Hcontains) as (pos & _ & _ & Hzero & Hone).
      rewrite Heq in Hone. congruence.
  - intros Hwin Hcontains.
    destruct (correction_fires api p Hwin Hcontains) as (pos & Hfirst & Heq & Hzero & Hone).
    exists pos. split; [done|]. split; [done|].
    split; [rewrite Heq; apply length_insert|].
    split; [done|]. split; [done|].
    intros i Hi. rewrite Heq. by apply list_lookup_insert_ne.
Qed.

(** ** The registry resolvers *)

Lemma store_exact (data : cxx_string) :
  store (string_of_size (length data)) data = data.
Proof.
  unfold store, string_of_size. rewrite repeat_length.
  rewrite drop_ge by (rewrite repeat_length; lia).
  rewrite app_nil_r. apply firstn_all.
Qed.

Lemma holds_value_size (api : win32) (name : string) (data : cxx_string) :
  holds_value api name data ->
  RegQueryValueExA_out api name None = (ERROR_SUCCESS, length data, []).
Proof.
  intros H. rewrite H. unfold registry_query. by rewrite lookup_singleton_eq.
Qed.

Lemma holds_value_fill (api : win32) (name : string) (data : cxx_string) :
  holds_value api name data ->
  RegQueryValueExA_out api name (Some (length data)) = (ERROR_SUCCESS, length data, data).
Proof.
  intros H. rewrite H. unfold registry_query. rewrite lookup_singleton_eq.
  by rewrite Nat.leb_refl.
Qed.

Lemma version_name_reg_value (api : win32) (h : positive) (data : cxx_string) :
  key_opens api h ->
  holds_value api "ProductName" data ->
  version_name_reg api =
  (data, [EvCall "version_name_reg"; EvAcquire (RegKey h);
          EvRegQuery "ProductName" false; EvRegQuery "ProductName" true;
          EvRelease (RegKey h)]).
Proof.
  intros Hopen Hval. unfold_calls. rewrite Hopen. cbn.
  rewrite (holds_value_size _ _ _ Hval). cbn.
  rewrite (holds_value_fill _ _ _ Hval). cbn.
  by rewrite store_exact.
Qed.

(** C10: a display name stored with a trailing NUL is returned with it:
    the registry resolver returns all the bytes of the reported size, so
    the NUL is the last char of its result and of the aggregator's
    [full_name] (for a major version of 10 or above), not the last
    visible char. *)
Theorem C10_registry_name_keeps_trailing_NUL :
  (forall (api : win32) (p : process) (h : positive) (data : cxx_string),
     key_opens api h ->
     holds_value api "ProductName" data ->
     last data = Some NUL ->
     result_of (version_name_reg api) = data /\
     length (result_of (version_name_reg api)) = length data /\
     last (result_of (version_name_reg api)) = Some NUL /\
     (10 <= major_version (info_of api p) ->
      length (full_name (info_of api p)) = length data /\
      last (full_name (info_of api p)) = Some NUL)) /\
  (full_name (info_of terminated_machine fresh_process) = str "Windows 11 Pro" ++ [NUL] /\
   length (full_name (info_of terminated_machine fresh_process)) = 15%nat /\
   full_name (info_of terminated_machine fresh_process) <> str "Windows 11 Pro").
Proof.
  split; [|by vm_compute].
  intros api p h data Hopen Hval Hlast.
  pose proof (version_name_reg_value api h data Hopen Hval) as Hrun.
  unfold result_of. rewrite Hrun. cbn [fst].
  split; [done|]. split; [done|]. split; [done|].
  intros Hmajor. rewrite info_of_eq in Hmajor |- *. cbn [major_version] in Hmajor.
  cbn [full_name]. apply Z.ltb_ge in Hmajor. rewrite Hmajor.
  unfold result_of. rewrite Hrun. cbn [fst].
  destruct (corrected_name_cases (kernel_version api p) data) as [->|(pos & Hfind & ->)];
    [done|].
  split; [apply length_insert|].
  apply find_space_10 in Hfind as [Hzero Hlt].
  rewrite last_lookup in Hlast |- *. rewrite length_insert.
  rewrite list_lookup_insert_ne; [done|].
  intros Heq. rewrite Heq in Hzero. rewrite Hzero in Hlast. discriminate Hlast.
Qed.

Lemma C10_registry_name_keeps_trailing_NUL_witness :
  key_opens terminated_machine 7 /\
  holds_value terminated_machine "ProductName" (str "Windows 10 Pro" ++ [NUL]) /\
  last (full_name (info_of terminated_machine fresh_process)) = Some NUL.
Proof.
  assert (key_opens terminated_machine 7) as Hopen by reflexivity.
  assert (holds_value terminated_machine "ProductName" (str "Windows 10 Pro" ++ [NUL]))
    as Hval by (intros [n|]; reflexivity).
  split; [exact Hopen|]. split; [exact Hval|].
  refine (proj2 (proj2 (proj2 (proj2 (proj1 C10_registry_name_keeps_trailing_NUL
    terminated_machine fresh_process 7%positive _ Hopen Hval _))) _)).
  - reflexivity.
  - vm_compute. discriminate.
Defined.

Lemma byte_val_ascii (x : Z) :
  0 <= x < 256 -> byte_val (ascii_of_N (Z.to_N x)) = x.
Proof.
  intros Hx. unfold byte_val. rewrite N_ascii_embedding by lia. lia.
Qed.

Lemma le_decode_dword (v : Z) :
  0 <= v < DWORD_MOD -> le_decode (store (string_of_size 4) (dword_bytes v)) = v.
Proof.
  unfold DWORD_MOD. intros Hv. unfold dword_bytes, store. cbn.
  rewrite !byte_val_ascii by (apply Z.mod_pos_bound; lia).
  change (256 ^ 0) with 1. change (256 ^ 1) with 256.
  change (256 ^ 2) with 65536. change (256 ^ 3) with 16777216.
  change (2 ^ 32) with 4294967296 in Hv.
  Z.to_euclidean_division_equations. lia.
Qed.

Lemma holds_value_dword (api : win32) (name : string) (v : Z) :
  holds_value api name (dword_bytes v) ->
  RegQueryValueExA_out api name (Some 4%nat) = (ERROR_SUCCESS, 4%nat, dword_bytes v).
Proof. intros H. exact (holds_value_fill api name (dword_bytes v) H). Qed.

Lemma build_number_primary (api : win32) (h : positive) (v : Z) :
  key_opens api h ->
  0 <= v < DWORD_MOD ->
  holds_value api "UBR" (dword_bytes v) ->
  build_number api =
  (v, [EvCall "build_number"; EvAcquire (RegKey h); EvRegQuery "UBR" true;
       EvRelease (RegKey h); EvRelease (RegKey h)]).
Proof.
  intros Hopen Hv Hval. unfold_calls. rewrite Hopen.
  cbn -[le_decode store string_of_size dword_bytes].
  rewrite (holds_value_dword _ _ _ Hval).
  cbn -[le_decode store string_of_size dword_bytes].
  by rewrite le_decode_dword.
Qed.

(** C7: when the update build revision is present as a 32-bit value, the
    resolver returns that value and never queries the build label; 345
    gives 345 although a build label is present. *)
Theorem C7_primary_value_returned_as_is :
  (forall (api : win32) (h : positive) (v : Z),
     key_opens api h ->
     0 <= v < DWORD_MOD ->
     holds_value api "UBR" (dword_bytes v) ->
     result_of (build_number api) = v /\
     queries "BuildLabEx" (trace_of (build_number api)) = 0%nat) /\
  (ubr_machine.(RegQueryValueExA_out) "BuildLabEx" None
     = (ERROR_SUCCESS, 39%nat, []) /\
   result_of (build_number ubr_machine) = 345 /\
   patch_number (info_of ubr_machine fresh_process) = 345).
Proof.
  split; [|by vm_compute].
  intros api h v Hopen Hv Hval. unfold result_of, trace_of.
  by rewrite (build_number_primary api h v Hopen Hv Hval).
Qed.

Lemma C7_primary_value_returned_as_is_witness :
  key_opens ubr_machine 7 /\
  holds_value ubr_machine "UBR" (dword_bytes 345) /\
  result_of (build_number ubr_machine) = 345.
Proof.
  assert (key_opens ubr_machine 7) as Hopen by reflexivity.
  assert (holds_value ubr_machine "UBR" (dword_bytes 345)) as Hval
    by (intros [n|]; reflexivity).
  split; [exact Hopen|]. split; [exact Hval|].
  refine (proj1 (proj1 C7_primary_value_returned_as_is ubr_machine 7%positive 345 Hopen _ Hval)).
  unfold DWORD_MOD. lia.
Defined.

(** ** Tokenizing the build label *)

Lemma is_delim_single (d c : ascii) : is_delim [d] c = ascii_eqb c d.
Proof. unfold is_delim. simpl. apply orb_false_r. Qed.

Lemma fields_not_nil (d : ascii) (s : cxx_string) : fields d s <> [].
Proof.
  destruct s as [|c s]; simpl; [done|].
  destruct (ascii_eqb c d); [done|]. by destruct (fields d s).
Qed.

(** The chars [span_token] takes are the first field. *)
Lemma span_token_fields (d : ascii) (s : cxx_string) :
  match span_token [d] s with
  | (tok, []) => fields d s = [tok]
  | (tok, _ :: rest) => fields d s = tok :: fields d rest
  end.
Proof.
  induction s as [|c s IH]; [done|].
  cbn [span_token fields]. rewrite is_delim_single.
  destruct (ascii_eqb c d) eqn:Hc; [done|].
  destruct (span_token [d] s) as [tok rest].
  destruct rest as [|c' rest]; by rewrite IH.
Qed.

(** One call of [strtok_r] takes the first token and leaves the rest. *)
Lemma strtok_r_tokens (d : ascii) (s : cxx_string) :
  match strtok_r s [d] with
  | (None, ctx) => tokens d s = [] /\ ctx = []
  | (Some tok, ctx) => tokens d s = tok :: tokens d ctx
  end.
Proof.
  unfold strtok_r, tokens. induction s as [|c s IH]; [done|].
  cbn [skip_delims fields]. rewrite is_delim_single.
  destruct (ascii_eqb c d) eqn:Hc.
  - cbn [List.filter nonempty]. exact IH.
  - pose proof (span_token_fields d (c :: s)) as Hspan.
    cbn [span_token fields] in Hspan |- *.
    rewrite is_delim_single, Hc in Hspan |- *.
    destruct (span_token [d] s) as [tok rest].
    destruct rest as [|c' rest]; rewrite Hspan; reflexivity.
Qed.

Lemma build_number_fallback (api : win32) (h : positive) (label : cxx_string) :
  key_opens api h ->
  fst (fst (RegQueryValueExA_out api "UBR" (Some 4%nat))) <> ERROR_SUCCESS ->
  holds_value api "BuildLabEx" label ->
  build_number api =
  (second_token_value (c_str label),
   [EvCall "build_number"; EvAcquire (RegKey h); EvRegQuery "UBR" true;
    EvRegQuery "BuildLabEx" false; EvRegQuery "BuildLabEx" true;
    EvRelease (RegKey h); EvRelease (RegKey h)]).
Proof.
  intros Hopen Hubr Hval. unfold_calls. rewrite Hopen.
  cbn -[Z.eqb store string_of_size c_str strtok_r].
  destruct (RegQueryValueExA_out api "UBR" (Some 4%nat)) as [[status size] bytes].
  cbn [fst] in Hubr. apply Z.eqb_neq in Hubr. unfold ERROR_SUCCESS in Hubr. rewrite Hubr.
  rewrite (holds_value_size _ _ _ Hval).
  cbn -[store string_of_size c_str strtok_r].
  rewrite (holds_value_fill _ _ _ Hval).
  cbn -[store string_of_size c_str strtok_r].
  rewrite store_exact. unfold second_token_value.
  pose proof (strtok_r_tokens "." (c_str label)) as H1.
  unfold str. cbn [list_ascii_of_string].
  destruct (strtok_r (c_str label) ["."%char]) as [[tok1|] ctx].
  - rewrite H1. pose proof (strtok_r_tokens "." ctx) as H2.
    destruct (strtok_r ctx ["."%char]) as [[tok2|] ctx'].
    + by rewrite H2.
    + by destruct H2 as [-> _].
  - by destruct H1 as [-> ->].
Qed.

Lemma digit_not_space (c : ascii) : is_digit c -> isspace c = false.
Proof. unfold is_digit, isspace. intros H. cbv zeta. lia. Qed.

Lemma digit_not_sign (c : ascii) :
  is_digit c -> ascii_eqb c "-" = false /\ ascii_eqb c "+" = false.
Proof.
  intros H. split; apply ascii_eqb_neq; intros ->; unfold is_digit in H;
    vm_compute in H; destruct H as [H1 H2]; contradiction.
Qed.

Lemma digit_val_digit (c : ascii) : is_digit c -> digit_val c = Some (byte_val c - 48).
Proof.
  unfold is_digit, digit_val. intros H. cbv zeta.
  replace ((48 <=? byte_val c) && (byte_val c <=? 57)) with true; [done|].
  symmetry. apply andb_true_iff. lia.
Qed.

Lemma read_digits_decimal (ds : cxx_string) (acc : Z) :
  Forall is_digit ds ->
  read_digits ds acc = acc * 10 ^ Z.of_nat (length ds) + decimal_value ds.
Proof.
  intros Hds. revert acc. induction Hds as [|c ds Hc Hds IH]; intros acc.
  - simpl. lia.
  - cbn [read_digits decimal_value length]. rewrite (digit_val_digit c Hc), IH.
    rewrite Nat2Z.inj_succ, Z.pow_succ_r by lia. lia.
Qed.

(** On a run of digits [strtoul] is the decimal value, capped. *)
Lemma strtoul_decimal (ds : cxx_string) :
  Forall is_digit ds -> strtoul ds = Z.min (decimal_value ds) ULONG_MAX.
Proof.
  intros Hds. unfold strtoul.
  assert (skip_space ds = ds) as ->.
  { destruct Hds as [|c ds Hc _]; [done|]. simpl. by rewrite (digit_not_space c Hc). }
  destruct Hds as [|c ds Hc Hds].
  - by vm_compute.
  - destruct (digit_not_sign c Hc) as [-> ->].
    rewrite (read_digits_decimal (c :: ds) 0) by (by constructor).
    rewrite Z.mul_0_l, Z.add_0_l.
    destruct (ULONG_MAX <? decimal_value (c :: ds)) eqn:Hcmp.
    + apply Z.ltb_lt in Hcmp. lia.
    + apply Z.ltb_ge in Hcmp. lia.
Qed.

(** C6: without the update build revision the resolver reads the build
    label, splits it at "." into its non-empty tokens, drops the first
    and returns the second as an unsigned decimal integer ([strtoul]);
    with fewer than two tokens it returns 0.  The label
    "22000.1.amd64fre.co_release.210604-1628" gives 1, "22000" gives 0. *)
Theorem C6_build_label_fallback :
  (forall (api : win32) (h : positive) (label : cxx_string),
     key_opens api h ->
     fst (fst (RegQueryValueExA_out api "UBR" (Some 4%nat))) <> ERROR_SUCCESS ->
     holds_value api "BuildLabEx" label ->
     ((length (tokens "." (c_str label)) < 2)%nat ->
      result_of (build_number api) = 0) /\
     (forall first second rest,
        tokens "." (c_str label) = first :: second :: rest ->
        result_of (build_number api) = strtoul second /\
        (Forall is_digit second ->
         result_of (build_number api) = Z.min (decimal_value second) ULONG_MAX))) /\
  (tokens "." (str "22000.1.amd64fre.co_release.210604-1628")
     = [str "22000"; str "1"; str "amd64fre"; str "co_release"; str "210604-1628"] /\
   result_of (build_number
     (fallback_machine (str "22000.1.amd64fre.co_release.210604-1628"))) = 1) /\
  (tokens "." (str "22000") = [str "22000"] /\
   result_of (build_number (fallback_machine (str "22000"))) = 0).
Proof.
  split; [|by vm_compute].
  intros api h label Hopen Hubr Hval. unfold result_of.
  rewrite (build_number_fallback api h label Hopen Hubr Hval). cbn [fst].
  unfold second_token_value. split.
  - intros Hfew. destruct (tokens "." (c_str label)) as [|first [|second rest]];
      [done | done | simpl in Hfew; lia].
  - intros first second rest ->. split; [done|]. apply strtoul_decimal.
Qed.

Lemma C6_build_label_fallback_witness :
  key_opens (fallback_machine (str "22000.1.amd64fre.co_release.210604-1628")) 7 /\
  result_of (build_number
    (fallback_machine (str "22000.1.amd64fre.co_release.210604-1628"))) = strtoul (str "1").
Proof.
  split; [reflexivity|].
  refine (proj1 (proj2 (proj1 C6_build_label_fallback
    (fallback_machine (str "22000.1.amd64fre.co_release.210604-1628")) 7%positive
    (str "22000.1.amd64fre.co_release.210604-1628") _ _ _)
    (str "22000") (str "1") [str "amd64fre"; str "co_release"; str "210604-1628"] _)).
  - reflexivity.
  - vm_compute. discriminate.
  - intros [n|]; reflexivity.
  - reflexivity.
Defined.

(** ** Closing the registry key *)

(** [version_name_reg] has the single guard of line 117, declared after
    the open check. *)
Lemma version_name_reg_closes_once (api : win32) (h : positive) :
  key_opens api h ->
  opens h (trace_of (version_name_reg api)) = 1%nat /\
  closes h (trace_of (version_name_reg api)) = 1%nat /\
  live_after (trace_of (version_name_reg api)) [] = Some [].
Proof.
  intros Hopen. unfold trace_of, opens, closes. unfold_calls. rewrite Hopen.
  cbn. repeat registry_step; rewrite ?Pos.eqb_refl; repeat case_bool_decide; done.
Qed.

(** ** The WMI resolver *)

Lemma live_after_app (t1 t2 : list event) (held : list resource) :
  live_after (t1 ++ t2) held =
  match live_after t1 held with
  | Some held' => live_after t2 held'
  | None => None
  end.
Proof.
  revert held. induction t1 as [|e t1 IH]; intros held; [done|].
  destruct e as [fn|r|r|value fill]; cbn [app live_after]; try apply IH.
  destruct held as [|r' held]; [done|]. by destruct (bool_decide (r = r')).
Qed.

Lemma balanced_nil : balanced [].
Proof. by intros held. Qed.

Lemma balanced_app (t1 t2 : list event) :
  balanced t1 -> balanced t2 -> balanced (t1 ++ t2).
Proof. intros H1 H2 held. by rewrite live_after_app, H1, H2. Qed.

Lemma balanced_call (fn : string) (tr : list event) :
  balanced tr -> balanced (EvCall fn :: tr).
Proof. intros H held. apply H. Qed.

(** A scope that acquires, runs a balanced body and releases. *)
Lemma balanced_scope (r : resource) (tr : list event) :
  balanced tr -> balanced (EvAcquire r :: tr ++ [EvRelease r]).
Proof.
  intros H held. cbn [live_after]. rewrite live_after_app, H. cbn.
  by rewrite bool_decide_eq_true_2.
Qed.

Lemma live_after_counts (tr : list event) (held held' : list resource) (r : resource) :
  live_after tr held = Some held' ->
  (count_if (is_acquire r) tr + count_occ resource_eq_dec held r
   = count_if (is_release r) tr + count_occ resource_eq_dec held' r)%nat.
Proof.
  revert held. induction tr as [|e tr IH]; intros held.
  - intros [= ->]. done.
  - destruct e as [fn|r0|r0|value fill]; cbn [live_after count_if is_acquire is_release];
      try (intros H; apply IH in H; lia).
    + intros H. apply IH in H. cbn [count_occ] in H.
      destruct (resource_eq_dec r0 r) as [->|Hne].
      * rewrite bool_decide_eq_true_2 by done. lia.
      * rewrite bool_decide_eq_false_2 by congruence. lia.
    + destruct held as [|r' held]; [done|].
      case_bool_decide as Heq; [|done]. subst r'.
      intros H. apply IH in H. cbn [count_occ].
      destruct (resource_eq_dec r0 r) as [->|Hne].
      * rewrite bool_decide_eq_true_2 by done. lia.
      * rewrite bool_decide_eq_false_2 by congruence. lia.
Qed.

Lemma balanced_releases_all (tr : list event) : balanced tr -> releases_all tr.
Proof.
  intros H r. pose proof (live_after_counts tr [] [] r (H [])) as Hc.
  cbn [count_occ] in Hc. lia.
Qed.

Section Drain.

Variable narrowen_bstring : list Z -> cxx_string.

Lemma drain_balanced (rows : list (list Z)) (i : nat) (acc : cxx_string) :
  balanced (trace_of (drain narrowen_bstring rows i acc)).
Proof.
  revert i acc. induction rows as [|name rows IH]; intros i acc.
  - apply balanced_nil.
  - unfold trace_of in *. cbn [drain].
    unfold unique_ptr_release, quickscope_wrapper, Get, VariantClear, bind, emit, ret.
    cbn. specialize (IH (S i) (narrowen_bstring name)).
    destruct (drain narrowen_bstring rows (S i) (narrowen_bstring name)) as [r tr].
    cbn in IH |- *. intros held. cbn. rewrite !bool_decide_eq_true_2 by done. apply IH.
Qed.

Lemma drain_result (rows : list (list Z)) (i : nat) (acc : cxx_string) :
  result_of (drain narrowen_bstring rows i acc) =
  match last rows with
  | Some name => narrowen_bstring name
  | None => acc
  end.
Proof.
  revert i acc. induction rows as [|name rows IH]; intros i acc; [done|].
  unfold result_of in *. cbn [drain].
  unfold unique_ptr_release, quickscope_wrapper, Get, VariantClear, bind, emit, ret.
  cbn. specialize (IH (S i) (narrowen_bstring name)).
  destruct (drain narrowen_bstring rows (S i) (narrowen_bstring name)) as [r tr].
  cbn in IH |- *. rewrite IH. destruct rows as [|name' rows]; [done|].
  rewrite last_cons_cons. destruct (last (name' :: rows)) eqn:Hlast; [done|].
  by apply last_None in Hlast.
Qed.

End Drain.

Lemma FAILED_CHANGED_MODE : FAILED RPC_E_CHANGED_MODE = true.
Proof. reflexivity. Qed.

Lemma FAILED_TOO_LATE : FAILED RPC_E_TOO_LATE = true.
Proof. reflexivity. Qed.

(** Case analysis on the next status the resolver tests. *)
Ltac hresult_step :=
  match goal with
  | |- context [?hr =? RPC_E_CHANGED_MODE] =>
      let Heq := fresh "Heq" in
      destruct (Z.eqb_spec hr RPC_E_CHANGED_MODE) as [Heq|?];
      [rewrite Heq in *|]
  | |- context [?hr =? RPC_E_TOO_LATE] =>
      let Heq := fresh "Heq" in
      destruct (Z.eqb_spec hr RPC_E_TOO_LATE) as [Heq|?];
      [rewrite Heq in *|]
  | |- context [FAILED (?f ?api)] => destruct (FAILED (f api)) eqn:?
  | |- context [FAILED (?f ?api ?x)] => destruct (FAILED (f api x)) eqn:?
  end;
  rewrite ?FAILED_CHANGED_MODE, ?FAILED_TOO_LATE in *;
  try discriminate;
  cbn -[FAILED RPC_E_CHANGED_MODE RPC_E_TOO_LATE COINIT_MULTITHREADED COINIT_APARTMENTTHREADED drain].

Ltac unfold_wmi :=
  unfold version_name_wmi, CoInitializeEx, CoUninitialize, CoCreateInstance, ConnectServer,
    ExecQuery, unique_ptr_release, quickscope_wrapper, bind, emit, ret;
  cbn -[FAILED RPC_E_CHANGED_MODE RPC_E_TOO_LATE COINIT_MULTITHREADED COINIT_APARTMENTTHREADED drain].

(** C4: on every path through the WMI resolver, whatever the platform
    answers, each resource acquired (COM library, locator, service
    connection, query iterator, each object handed out and each variant
    filled) is released before the resolver returns, once, and in the
    reverse order of acquisition. *)
Theorem C4_wmi_releases_every_resource
    (api : win32) (narrowen_bstring : list Z -> cxx_string) :
  balanced (trace_of (version_name_wmi api narrowen_bstring)) /\
  releases_all (trace_of (version_name_wmi api narrowen_bstring)).
Proof.
  assert (balanced (trace_of (version_name_wmi api narrowen_bstring))) as Hbal.
  { pose proof (drain_balanced narrowen_bstring (query_rows api) 0 []) as Hdrain.
    unfold trace_of in *. unfold_wmi.
    destruct (drain narrowen_bstring (query_rows api) 0 []) as [name tr].
    cbn [snd] in Hdrain.
    unfold balanced in Hdrain.
    repeat hresult_step; try destruct (find_char name "|"); intros held; cbn;
      rewrite ?live_after_app, ?Hdrain; cbn; by rewrite ?bool_decide_eq_true_2. }
  split; [done | by apply balanced_releases_all].
Qed.

Lemma find_char_from_app (c : ascii) (pre post : cxx_string) (k : nat) :
  c ∉ pre -> find_char_from c (pre ++ c :: post) k = Some (k + length pre)%nat.
Proof.
  revert k. induction pre as [|b pre IH]; intros k Hnotin; cbn [app find_char_from length].
  - rewrite ascii_eqb_refl. f_equal. lia.
  - apply not_elem_of_cons in Hnotin as [Hne Hnotin].
    assert (ascii_eqb b c = false) as -> by (apply ascii_eqb_neq; congruence).
    rewrite IH by done. f_equal. lia.
Qed.

Lemma find_char_from_None (c : ascii) (hay : cxx_string) (k : nat) :
  c ∉ hay -> find_char_from c hay k = None.
Proof.
  revert k. induction hay as [|b hay IH]; intros k Hnotin; [done|].
  apply not_elem_of_cons in Hnotin as [Hne Hnotin]. cbn [find_char_from].
  assert (ascii_eqb b c = false) as -> by (apply ascii_eqb_neq; congruence).
  by apply IH.
Qed.

Lemma not_FAILED (hr : Z) : 0 <= hr -> FAILED hr = false.
Proof. intros H. apply Z.ltb_ge. lia. Qed.

(** With the session established, the resolver returns the retrieved
    name cut by lines 79-81. *)
Lemma version_name_wmi_ok (api : win32) (narrowen_bstring : list Z -> cxx_string) :
  wmi_session_ok api ->
  result_of (version_name_wmi api narrowen_bstring) =
  match find_char (retrieved_name api narrowen_bstring) "|" with
  | Some sep => resize (retrieved_name api narrowen_bstring) sep
  | None => retrieved_name api narrowen_bstring
  end.
Proof.
  intros (Hcom & Hsec & Hloc & Hsvc & Hblanket & Hquery).
  pose proof (drain_result narrowen_bstring (query_rows api) 0 []) as Hdrain.
  unfold retrieved_name, result_of in *. unfold_wmi.
  destruct (drain narrowen_bstring (query_rows api) 0 []) as [name tr].
  cbn [fst] in Hdrain. rewrite <- Hdrain. clear Hdrain.
  assert ((FAILED (CoInitializeSecurity_out api)
           && negb (CoInitializeSecurity_out api =? RPC_E_TOO_LATE)) = false) as Hsec'.
  { destruct Hsec as [Hsec | ->]; [by rewrite (not_FAILED _ Hsec) | reflexivity]. }
  assert (FAILED (com_initialised api) = false) as Hcom' by by apply not_FAILED.
  unfold com_initialised in Hcom'.
  destruct (Z.eqb_spec (CoInitializeEx_out api COINIT_MULTITHREADED) RPC_E_CHANGED_MODE)
    as [Heq|Hne].
  - rewrite Heq, FAILED_CHANGED_MODE. change (RPC_E_CHANGED_MODE =? RPC_E_CHANGED_MODE) with true.
    repeat (rewrite ?Hcom', ?Hsec', ?(not_FAILED _ Hloc), ?(not_FAILED _ Hsvc),
              ?(not_FAILED _ Hblanket), ?(not_FAILED _ Hquery);
            progress cbn -[FAILED RPC_E_CHANGED_MODE RPC_E_TOO_LATE COINIT_APARTMENTTHREADED]).
    by destruct (find_char name "|").
  - apply Z.eqb_neq in Hne.
    repeat (rewrite ?Hne, ?Hcom', ?Hsec', ?(not_FAILED _ Hloc), ?(not_FAILED _ Hsvc),
              ?(not_FAILED _ Hblanket), ?(not_FAILED _ Hquery);
            progress cbn -[FAILED RPC_E_CHANGED_MODE RPC_E_TOO_LATE COINIT_MULTITHREADED]).
    by destruct (find_char name "|").
Qed.

(** C8: a retrieved name that contains "|" is returned cut before the
    first "|"; one without "|" is returned as it is.  The Server 2019
    name with two qualifiers comes back without them. *)
Theorem C8_wmi_name_truncated_at_separator :
  (forall (api : win32) (narrowen_bstring : list Z -> cxx_string),
     wmi_session_ok api ->
     (forall pre post,
        retrieved_name api narrowen_bstring = pre ++ "|"%char :: post ->
        "|"%char ∉ pre ->
        result_of (version_name_wmi api narrowen_bstring) = pre) /\
     ("|"%char ∉ retrieved_name api narrowen_bstring ->
      result_of (version_name_wmi api narrowen_bstring)
      = retrieved_name api narrowen_bstring)) /\
  result_of (version_name_wmi
    (wmi_machine
       [wide (str "Microsoft Windows Server 2019 Standard|C:\Windows|\Device\Harddisk0")])
    narrow) = str "Microsoft Windows Server 2019 Standard" /\
  result_of (version_name_wmi
    (wmi_machine [wide (str "Microsoft Windows 10 Pro")]) narrow)
  = str "Microsoft Windows 10 Pro".
Proof.
  split; [|by vm_compute].
  intros api narrowen_bstring Hok. rewrite (version_name_wmi_ok _ _ Hok). split.
  - intros pre post -> Hpre. unfold find_char.
    rewrite (find_char_from_app _ _ _ _ Hpre). unfold resize. cbn [Nat.add].
    by rewrite take_app_length.
  - intros Hnone. unfold find_char. by rewrite (find_char_from_None _ _ _ Hnone).
Qed.

Lemma C8_wmi_name_truncated_at_separator_witness :
  wmi_session_ok (wmi_machine [wide (str "Standard|C:\Windows")]) /\
  result_of (version_name_wmi (wmi_machine [wide (str "Standard|C:\Windows")]) narrow)
  = str "Standard".
Proof.
  assert (wmi_session_ok (wmi_machine [wide (str "Standard|C:\Windows")])) as Hok.
  { unfold wmi_session_ok. change (com_initialised _) with 0. cbn. intuition lia. }
  split; [exact Hok|].
  refine (proj1 (proj1 C8_wmi_name_truncated_at_separator
    (wmi_machine [wide (str "Standard|C:\Windows")]) narrow Hok)
    (str "Standard") (str "C:\Windows") _ _).
  - reflexivity.
  - vm_compute. intros H. repeat (apply elem_of_cons in H as [H|H]; [discriminate H|]).
    by apply elem_of_nil in H.
Defined.

(** ** Instances on the sample machines *)

Lemma C1_win11_display_name_correction_witness :
  is_win11 (info_of win11_machine fresh_process) /\
  contains (resolved_name win11_machine fresh_process) (str " 10") /\
  full_name (info_of win11_machine fresh_process)
  <> resolved_name win11_machine fresh_process.
Proof.
  assert (is_win11 (info_of win11_machine fresh_process)) as Hwin.
  { repeat split. vm_compute. discriminate. }
  assert (contains (resolved_name win11_machine fresh_process) (str " 10")) as Hcontains.
  { exists (str "Windows"), (str " Pro"). reflexivity. }
  split; [exact Hwin|]. split; [exact Hcontains|].
  exact (proj2 (proj1 (proj1 C1_win11_display_name_correction win11_machine fresh_process))
           (conj Hwin Hcontains)).
Defined.

Lemma C5_name_path_by_major_version_witness :
  10 <= major_version (info_of win11_machine fresh_process) /\
  calls "version_name" (log_of win11_machine fresh_process) = 0%nat /\
  calls "version_name_reg" (log_of win11_machine fresh_process) = 1%nat.
Proof.
  assert (10 <= major_version (info_of win11_machine fresh_process)) as Hmajor.
  { vm_compute. discriminate. }
  split; [exact Hmajor|].
  destruct (proj2 (C5_name_path_by_major_version win11_machine fresh_process) Hmajor)
    as (Hlegacy & Hreg & _).
  split; [exact Hlegacy | exact Hreg].
Defined.

(** * Further properties of the resolvers *)

(** ** Registry resolvers: failures *)

(** Case analysis on a status: zero or not, recorded as an equation. *)
Ltac status_cases status :=
  let Hstatus := fresh "Hstatus" in
  destruct (Z.eqb_spec status 0) as [Hstatus|Hstatus];
  [ subst status; cbn
  | let Hneq := fresh "Hneq" in
    pose proof (proj2 (Z.eqb_neq status 0) Hstatus) as Hneq;
    cbn; rewrite ?Hneq; cbn ].

Lemma unopened_key (api : win32) :
  open_status api <> ERROR_SUCCESS ->
  version_name_reg api = ([], [EvCall "version_name_reg"]) /\
  build_number api = (0, [EvCall "build_number"]).
Proof.
  unfold open_status, ERROR_SUCCESS. intros Hopen. unfold_calls.
  destruct (RegOpenKeyExA_out api) as [status h]. cbn [fst] in Hopen.
  apply Z.eqb_neq in Hopen. cbn. repeat (rewrite Hopen; cbn). split; reflexivity.
Qed.

(** When the key does not open, neither registry resolver queries a
    value or closes anything: [version_name_reg] returns the empty
    string and [build_number] returns 0 (lines 89-90 and 115-116). *)
Theorem unopened_key_is_left_alone (api : win32) :
  open_status api <> ERROR_SUCCESS ->
  version_name_reg api = ([], [EvCall "version_name_reg"]) /\
  build_number api = (0, [EvCall "build_number"]).
Proof. apply unopened_key. Qed.

Lemma unopened_key_is_left_alone_witness :
  open_status locked_machine <> ERROR_SUCCESS /\
  result_of (version_name_reg locked_machine) = [] /\
  result_of (build_number locked_machine) = 0.
Proof.
  assert (open_status locked_machine <> ERROR_SUCCESS) as Hopen by (vm_compute; discriminate).
  split; [exact Hopen|].
  destruct (unopened_key_is_left_alone locked_machine Hopen) as [Hname Hbuild].
  unfold result_of. rewrite Hname, Hbuild. split; reflexivity.
Defined.

(** [version_name_reg] returns the empty string when the size query or
    the fill query for ProductName fails (lines 120-125). *)
Theorem version_name_reg_empty_on_query_failure (api : win32) :
  query_status api "ProductName" None <> ERROR_SUCCESS \/
  query_status api "ProductName" (Some (reported_size api "ProductName")) <> ERROR_SUCCESS ->
  result_of (version_name_reg api) = [].
Proof.
  unfold query_status, reported_size, ERROR_SUCCESS, result_of. intros Hfail.
  unfold_calls. cbn.
  destruct (RegOpenKeyExA_out api) as [status h]. cbn.
  status_cases status; [|done].
  destruct (RegQueryValueExA_out api "ProductName" None) as [[status1 size1] bytes1].
  cbn [fst snd] in Hfail. cbn.
  status_cases status1; [|done].
  destruct (RegQueryValueExA_out api "ProductName" (Some size1)) as [[status2 size2] bytes2].
  cbn [fst snd] in Hfail. cbn.
  status_cases status2; [|done].
  destruct Hfail as [Hfail|Hfail]; lia.
Qed.

Lemma version_name_reg_empty_on_query_failure_witness :
  query_status bare_machine "ProductName" None <> ERROR_SUCCESS /\
  result_of (version_name_reg bare_machine) = [].
Proof.
  assert (query_status bare_machine "ProductName" None <> ERROR_SUCCESS) as Hq
    by (vm_compute; discriminate).
  split; [exact Hq|].
  exact (version_name_reg_empty_on_query_failure bare_machine (or_introl Hq)).
Defined.

(** Whenever the key opens, [version_name_reg] opens it once and closes
    it once before it returns, on the success path and on both failure
    paths (line 117). *)
Theorem version_name_reg_closes_key_once (api : win32) (h : positive) :
  key_opens api h ->
  opens h (trace_of (version_name_reg api)) = 1%nat /\
  closes h (trace_of (version_name_reg api)) = 1%nat /\
  balanced (trace_of (version_name_reg api)).
Proof.
  intros Hopen. destruct (version_name_reg_closes_once api h Hopen) as (Ho & Hc & _).
  split; [done|]. split; [done|].
  intros held. unfold trace_of. unfold_calls. rewrite Hopen. cbn.
  repeat registry_step; by rewrite ?bool_decide_eq_true_2.
Qed.

Lemma version_name_reg_closes_key_once_witness :
  key_opens bare_machine 7 /\
  closes 7 (trace_of (version_name_reg bare_machine)) = 1%nat.
Proof.
  assert (key_opens bare_machine 7) as Hopen by reflexivity.
  split; [exact Hopen|].
  exact (proj1 (proj2 (version_name_reg_closes_key_once bare_machine 7 Hopen))).
Defined.

Lemma store_length (buf bytes : cxx_string) : length (store buf bytes) = length buf.
Proof.
  unfold store. rewrite length_take, length_app, length_drop. lia.
Qed.

Lemma drop_repeat (c : ascii) (k n : nat) : drop k (repeat c n) = repeat c (n - k).
Proof.
  revert k. induction n as [|n IH]; intros k; [by destruct k|].
  destruct k as [|k]; [done|]. cbn. apply IH.
Qed.

Lemma store_short (n : nat) (bytes : cxx_string) :
  (length bytes <= n)%nat ->
  store (string_of_size n) bytes = bytes ++ repeat NUL (n - length bytes).
Proof.
  intros Hle. unfold store, string_of_size. rewrite repeat_length, drop_repeat.
  apply take_ge. rewrite length_app, repeat_length. lia.
Qed.

(** ** Registry resolvers: sizes and ranges *)

(** When the key opens and both ProductName queries succeed,
    [version_name_reg] returns exactly as many chars as the size query
    reported (line 123), whatever the fill query stores; bytes the fill
    query does not write stay NUL. *)
Theorem version_name_reg_has_reported_size (api : win32) :
  open_status api = ERROR_SUCCESS ->
  query_status api "ProductName" None = ERROR_SUCCESS ->
  query_status api "ProductName" (Some (reported_size api "ProductName")) = ERROR_SUCCESS ->
  length (result_of (version_name_reg api)) = reported_size api "ProductName" /\
  ((length (filled_bytes api "ProductName") <= reported_size api "ProductName")%nat ->
   result_of (version_name_reg api)
   = filled_bytes api "ProductName"
     ++ repeat NUL (reported_size api "ProductName" - length (filled_bytes api "ProductName"))).
Proof.
  unfold open_status, query_status, filled_bytes, reported_size, ERROR_SUCCESS, result_of.
  intros Hopen Hsize Hfill. unfold_calls. cbn.
  destruct (RegOpenKeyExA_out api) as [status h]. cbn [fst] in Hopen. subst status. cbn.
  destruct (RegQueryValueExA_out api "ProductName" None) as [[status1 size1] bytes1].
  cbn [fst snd] in *. subst status1. cbn.
  destruct (RegQueryValueExA_out api "ProductName" (Some size1)) as [[status2 size2] bytes2].
  cbn [fst snd] in *. subst status2. cbn -[store string_of_size].
  split.
  - rewrite store_length. apply repeat_length.
  - apply store_short.
Qed.

Lemma version_name_reg_has_reported_size_witness :
  reported_size short_fill_machine "ProductName" = 8%nat /\
  result_of (version_name_reg short_fill_machine) = str "Win" ++ repeat NUL 5.
Proof.
  split; [reflexivity|].
  refine (proj2 (version_name_reg_has_reported_size short_fill_machine _ _ _) _).
  - reflexivity.
  - reflexivity.
  - reflexivity.
  - vm_compute. lia.
Defined.

(** [build_number] returns 0 when the update build revision cannot be
    read and the size query or the fill query for the build label fails
    (lines 100-105). *)
Theorem build_number_zero_on_fallback_failure (api : win32) :
  query_status api "UBR" (Some 4%nat) <> ERROR_SUCCESS ->
  query_status api "BuildLabEx" None <> ERROR_SUCCESS \/
  query_status api "BuildLabEx" (Some (reported_size api "BuildLabEx")) <> ERROR_SUCCESS ->
  result_of (build_number api) = 0.
Proof.
  unfold query_status, reported_size, ERROR_SUCCESS, result_of. intros Hubr Hfail.
  unfold_calls. cbn.
  destruct (RegOpenKeyExA_out api) as [status h]. cbn.
  status_cases status; [|done].
  destruct (RegQueryValueExA_out api "UBR" (Some 4%nat)) as [[status0 size0] bytes0].
  cbn [fst snd] in Hubr. cbn.
  status_cases status0; [done|].
  destruct (RegQueryValueExA_out api "BuildLabEx" None) as [[status1 size1] bytes1].
  cbn [fst snd] in Hfail. cbn.
  status_cases status1; [|done].
  destruct (RegQueryValueExA_out api "BuildLabEx" (Some size1)) as [[status2 size2] bytes2].
  cbn [fst snd] in Hfail. cbn -[strtok_r c_str store string_of_size].
  status_cases status2; [|done].
  destruct Hfail as [Hfail|Hfail]; lia.
Qed.

Lemma build_number_zero_on_fallback_failure_witness :
  query_status bare_machine "UBR" (Some 4%nat) <> ERROR_SUCCESS /\
  result_of (build_number bare_machine) = 0.
Proof.
  assert (query_status bare_machine "UBR" (Some 4%nat) <> ERROR_SUCCESS) as Hubr
    by (vm_compute; discriminate).
  assert (query_status bare_machine "BuildLabEx" None <> ERROR_SUCCESS) as Hlabel
    by (vm_compute; discriminate).
  split; [exact Hubr|].
  exact (build_number_zero_on_fallback_failure bare_machine Hubr (or_introl Hlabel)).
Defined.

Lemma byte_val_range (c : ascii) : 0 <= byte_val c < 256.
Proof. unfold byte_val. pose proof (N_ascii_bounded c). lia. Qed.

Lemma le_decode_range (bs : cxx_string) :
  0 <= le_decode bs < 256 ^ Z.of_nat (length bs).
Proof.
  induction bs as [|b bs IH]; [cbn; lia|].
  cbn [le_decode length]. rewrite Nat2Z.inj_succ, Z.pow_succ_r by lia.
  pose proof (byte_val_range b). lia.
Qed.

Lemma read_digits_nonneg (s : cxx_string) (acc : Z) :
  0 <= acc -> 0 <= read_digits s acc.
Proof.
  revert acc. induction s as [|c s IH]; intros acc Hacc; [done|].
  cbn [read_digits]. unfold digit_val. cbv zeta.
  destruct ((48 <=? byte_val c) && (byte_val c <=? 57)) eqn:Hdigit; [|done].
  apply andb_true_iff in Hdigit as [Hlo _]. apply IH. lia.
Qed.

(** [strtoul] stays within the 32-bit [unsigned long]. *)
Lemma strtoul_range (s : cxx_string) : 0 <= strtoul s <= ULONG_MAX.
Proof.
  unfold strtoul.
  destruct (match skip_space s with
            | [] => (false, skip_space s)
            | c :: t =>
                if ascii_eqb c "-" then (true, t)
                else if ascii_eqb c "+" then (false, t) else (false, skip_space s)
            end) as [neg digits].
  pose proof (read_digits_nonneg digits 0 ltac:(lia)) as Hv.
  unfold ULONG_MAX, DWORD_MOD in *.
  destruct (2 ^ 32 - 1 <? read_digits digits 0) eqn:Hcmp; [lia|].
  apply Z.ltb_ge in Hcmp. destruct neg; [|lia].
  pose proof (Z.mod_pos_bound (2 ^ 32 - read_digits digits 0) (2 ^ 32) ltac:(lia)). lia.
Qed.

Lemma build_number_range (api : win32) :
  0 <= result_of (build_number api) < DWORD_MOD.
Proof.
  assert (0 <= 0 < DWORD_MOD) as Hzero by (unfold DWORD_MOD; lia).
  unfold result_of. unfold_calls. cbn.
  destruct (RegOpenKeyExA_out api) as [status h]. cbn.
  status_cases status; [|done].
  destruct (RegQueryValueExA_out api "UBR" (Some 4%nat)) as [[status0 size0] bytes0].
  cbn -[le_decode store].
  status_cases status0.
  - pose proof (le_decode_range (store [NUL; NUL; NUL; NUL] bytes0)) as Hrange.
    rewrite store_length in Hrange. exact Hrange.
  - destruct (RegQueryValueExA_out api "BuildLabEx" None) as [[status1 size1] bytes1]. cbn.
    status_cases status1; [|done].
    destruct (RegQueryValueExA_out api "BuildLabEx" (Some size1)) as [[status2 size2] bytes2].
    cbn -[strtok_r c_str store string_of_size strtoul].
    status_cases status2; [|done].
    destruct (strtok_r _ _) as [token1 ctx1]. destruct (strtok_r ctx1 _) as [[token2|] ctx2];
      cbn -[strtoul]; [|done].
    pose proof (strtoul_range token2). unfold ULONG_MAX, DWORD_MOD in *. lia.
Qed.

(** Whatever the registry answers, the value [build_number] returns fits
    its [unsigned int] return type: the four bytes of the revision, or
    [strtoul]'s result, or 0. *)
Theorem build_number_fits_unsigned_int (api : win32) :
  0 <= result_of (build_number api) < DWORD_MOD.
Proof. apply build_number_range. Qed.

(** ** [build_number]: which value is read *)

(** In a registry that answers as documented, an update build revision
    wider than the four-byte buffer makes the first query fail with
    ERROR_MORE_DATA, and [build_number] falls back to the build label
    (lines 95-110). *)
Theorem build_number_oversize_revision_falls_back
    (api : win32) (h : positive) (data label : cxx_string) :
  key_opens api h ->
  holds_value api "UBR" data ->
  (4 < length data)%nat ->
  holds_value api "BuildLabEx" label ->
  query_status api "UBR" (Some 4%nat) = ERROR_MORE_DATA /\
  result_of (build_number api) = second_token_value (c_str label) /\
  queries "BuildLabEx" (trace_of (build_number api)) = 2%nat.
Proof.
  intros Hopen Hubr Hwide Hlabel.
  assert (query_status api "UBR" (Some 4%nat) = ERROR_MORE_DATA) as Hstatus.
  { unfold query_status. rewrite Hubr. unfold registry_query. rewrite lookup_singleton_eq.
    destruct (Nat.leb_spec (length data) 4); [lia | reflexivity]. }
  split; [exact Hstatus|].
  assert (fst (fst (RegQueryValueExA_out api "UBR" (Some 4%nat))) <> ERROR_SUCCESS) as Hfail.
  { unfold query_status in Hstatus. rewrite Hstatus. discriminate. }
  unfold result_of, trace_of. rewrite (build_number_fallback api h label Hopen Hfail Hlabel).
  split; reflexivity.
Qed.

Lemma build_number_oversize_revision_falls_back_witness :
  key_opens wide_ubr_machine 7 /\
  result_of (build_number wide_ubr_machine) = 1.
Proof.
  split; [reflexivity|].
  refine (proj1 (proj2 (build_number_oversize_revision_falls_back wide_ubr_machine 7
    (dword_bytes 345 ++ dword_bytes 0) (str "19041.1.amd64fre.vb_release.191206-1406")
    _ _ _ _))).
  - reflexivity.
  - intros [n|]; reflexivity.
  - cbn. lia.
  - intros [n|]; reflexivity.
Defined.

Lemma fields_app_delim (d : ascii) (f s : cxx_string) :
  d ∉ f -> fields d (f ++ d :: s) = f :: fields d s.
Proof.
  induction f as [|c f IH]; intros Hnotin; cbn [app fields].
  - by rewrite ascii_eqb_refl.
  - apply not_elem_of_cons in Hnotin as [Hne Hnotin].
    assert (ascii_eqb c d = false) as -> by (apply ascii_eqb_neq; congruence).
    by rewrite IH.
Qed.

Lemma tokens_app_delim (d : ascii) (f s : cxx_string) :
  d ∉ f -> f <> [] -> tokens d (f ++ d :: s) = f :: tokens d s.
Proof.
  intros Hnotin Hne. unfold tokens. rewrite fields_app_delim by done.
  cbn [List.filter]. by destruct f.
Qed.

Lemma c_str_app (a b : cxx_string) : NUL ∉ a -> c_str (a ++ b) = a ++ c_str b.
Proof.
  induction a as [|c a IH]; intros Hnotin; [done|].
  apply not_elem_of_cons in Hnotin as [Hne Hnotin]. cbn [app c_str].
  assert (ascii_eqb c NUL = false) as -> by (apply ascii_eqb_neq; congruence).
  by rewrite IH.
Qed.

Lemma c_str_cons (c : ascii) (s : cxx_string) : c <> NUL -> c_str (c :: s) = c :: c_str s.
Proof.
  intros Hne. cbn [c_str]. apply ascii_eqb_neq in Hne. by rewrite Hne.
Qed.

Lemma digits_exclude (c : ascii) (ds : cxx_string) :
  ~ is_digit c -> Forall is_digit ds -> c ∉ ds.
Proof.
  intros Hc Hds Hin. rewrite Forall_forall in Hds. by apply Hc, Hds.
Qed.

(** For a build label of the usual shape, build "." revision "." rest,
    with a non-empty build part free of "." and NUL and a non-empty run
    of digits as revision, [build_number] returns the revision (capped at
    [ULONG_MAX]) when the update build revision cannot be read. *)
Theorem build_number_reads_revision_field
    (api : win32) (h : positive) (build revision rest : cxx_string) :
  key_opens api h ->
  query_status api "UBR" (Some 4%nat) <> ERROR_SUCCESS ->
  holds_value api "BuildLabEx" (build ++ "."%char :: revision ++ "."%char :: rest) ->
  build <> [] -> "."%char ∉ build -> NUL ∉ build ->
  revision <> [] -> Forall is_digit revision ->
  result_of (build_number api) = Z.min (decimal_value revision) ULONG_MAX.
Proof.
  intros Hopen Hubr Hlabel Hbuild Hdot Hnul Hrev Hdigits.
  assert ("."%char ∉ revision) as Hdot'.
  { apply digits_exclude; [|done]. unfold is_digit. vm_compute. intros [H _]. by apply H. }
  assert (NUL ∉ revision) as Hnul'.
  { apply digits_exclude; [|done]. unfold is_digit. vm_compute. intros [H _]. by apply H. }
  unfold result_of. rewrite (build_number_fallback api h _ Hopen Hubr Hlabel). cbn [fst].
  rewrite c_str_app by done. rewrite c_str_cons by discriminate.
  rewrite c_str_app by done. rewrite c_str_cons by discriminate.
  unfold second_token_value.
  rewrite tokens_app_delim by done. rewrite tokens_app_delim by done.
  by apply strtoul_decimal.
Qed.

Lemma build_number_reads_revision_field_witness :
  key_opens (fallback_machine (str "9600.16384.amd64fre")) 7 /\
  result_of (build_number (fallback_machine (str "9600.16384.amd64fre"))) = 16384.
Proof.
  split; [reflexivity|].
  refine (build_number_reads_revision_field (fallback_machine (str "9600.16384.amd64fre"))
    7 (str "9600") (str "16384") (str "amd64fre") _ _ _ _ _ _ _ _).
  - reflexivity.
  - vm_compute. discriminate.
  - intros [n|]; reflexivity.
  - discriminate.
  - intros H. repeat (apply elem_of_cons in H as [H|H]; [discriminate H|]).
    by apply elem_of_nil in H.
  - intros H. repeat (apply elem_of_cons in H as [H|H]; [discriminate H|]).
    by apply elem_of_nil in H.
  - discriminate.
  - repeat constructor; vm_compute; discriminate.
Defined.

(** ** The WMI resolver: failures and the shape of the result *)

Lemma FAILED_spec (hr : Z) : FAILED hr = true <-> hr < 0.
Proof. apply Z.ltb_lt. Qed.

Lemma FAILED_false (hr : Z) : FAILED hr = false <-> 0 <= hr.
Proof. unfold FAILED. rewrite Z.ltb_ge. done. Qed.

(** The session is established exactly when no step fails. *)
Lemma wmi_session_ok_or_failed (api : win32) :
  wmi_session_ok api \/ wmi_step_failed api.
Proof.
  unfold wmi_session_ok, wmi_step_failed.
  destruct (Z.eq_dec (CoInitializeSecurity_out api) RPC_E_TOO_LATE) as [Hlate|Hlate];
    lia.
Qed.

Lemma version_name_wmi_failed
    (api : win32) (narrowen_bstring : list Z -> cxx_string) :
  wmi_step_failed api ->
  result_of (version_name_wmi api narrowen_bstring) = [].
Proof.
  unfold wmi_step_failed, com_initialised. intros Hfail. unfold result_of. unfold_wmi.
  destruct (drain narrowen_bstring (query_rows api) 0 []) as [name tr].
  repeat hresult_step; try reflexivity.
  all: exfalso.
  all: repeat match goal with
         | H : FAILED _ = false |- _ => apply FAILED_false in H
         | H : FAILED _ = true |- _ => apply FAILED_spec in H
         end.
  all: try change (RPC_E_CHANGED_MODE =? RPC_E_CHANGED_MODE) with true in Hfail.
  all: repeat match goal with
         | H : context [?hr =? RPC_E_CHANGED_MODE] |- _ =>
             destruct (Z.eqb_spec hr RPC_E_CHANGED_MODE)
         end.
  all: try lia.
  all: try tauto.
Qed.

(** When a step of the session fails (COM initialisation, security
    setup other than "too late", locator, connection, proxy blanket or
    query), [version_name_wmi] returns the empty string. *)
Theorem version_name_wmi_empty_on_failure
    (api : win32) (narrowen_bstring : list Z -> cxx_string) :
  wmi_step_failed api ->
  result_of (version_name_wmi api narrowen_bstring) = [].
Proof. apply version_name_wmi_failed. Qed.

Lemma version_name_wmi_empty_on_failure_witness :
  wmi_step_failed no_wmi_machine /\
  result_of (version_name_wmi no_wmi_machine narrow) = [].
Proof.
  assert (wmi_step_failed no_wmi_machine) as Hfail.
  { right. right. right. left. cbn. lia. }
  split; [exact Hfail|].
  exact (version_name_wmi_empty_on_failure no_wmi_machine narrow Hfail).
Defined.

Lemma find_char_from_Some (c : ascii) (hay : cxx_string) (k pos : nat) :
  find_char_from c hay k = Some pos ->
  exists pre post, hay = pre ++ c :: post /\ (c ∉ pre) /\ pos = (k + length pre)%nat.
Proof.
  revert k. induction hay as [|b hay IH]; intros k; [done|]. cbn [find_char_from].
  destruct (ascii_eqb b c) eqn:Hb.
  - intros [= <-]. apply ascii_eqb_eq in Hb as ->.
    exists [], hay. split; [done|]. split; [apply not_elem_of_nil | cbn; lia].
  - intros Hfind. destruct (IH _ Hfind) as (pre & post & -> & Hnotin & ->).
    apply ascii_eqb_neq in Hb.
    exists (b :: pre), post. split; [done|]. split; [|cbn; lia].
    apply not_elem_of_cons. split; [congruence | done].
Qed.

Lemma find_char_from_None_inv (c : ascii) (hay : cxx_string) (k : nat) :
  find_char_from c hay k = None -> c ∉ hay.
Proof.
  revert k. induction hay as [|b hay IH]; intros k; [intros _; apply not_elem_of_nil|].
  cbn [find_char_from]. destruct (ascii_eqb b c) eqn:Hb; [done|].
  intros Hfind. apply ascii_eqb_neq in Hb. apply not_elem_of_cons.
  split; [congruence | by apply (IH (S k))].
Qed.

(** The string [version_name_wmi] returns never contains "|", and it is
    always an initial part of the name retrieved from the last object
    (lines 79-82, and the empty result of every failure path). *)
Theorem version_name_wmi_result_is_cut_name
    (api : win32) (narrowen_bstring : list Z -> cxx_string) :
  ("|"%char ∉ result_of (version_name_wmi api narrowen_bstring)) /\
  (result_of (version_name_wmi api narrowen_bstring)
     `prefix_of` retrieved_name api narrowen_bstring).
Proof.
  destruct (wmi_session_ok_or_failed api) as [Hok|Hfail].
  - rewrite (version_name_wmi_ok api narrowen_bstring Hok).
    destruct (find_char (retrieved_name api narrowen_bstring) "|") as [sep|] eqn:Hfind.
    + apply find_char_from_Some in Hfind as (pre & post & Hname & Hnotin & ->).
      rewrite Hname. unfold resize. cbn [Nat.add]. rewrite take_app_length.
      split; [done | by apply prefix_app_r].
    + split; [|done]. by apply find_char_from_None_inv in Hfind.
  - rewrite (version_name_wmi_failed api narrowen_bstring Hfail).
    split; [apply not_elem_of_nil | apply prefix_nil].
Qed.

(** When the query yields no object, [version_name_wmi] returns the
    empty string (the loop of lines 63-77 never assigns [ret]). *)
Theorem version_name_wmi_empty_without_rows
    (api : win32) (narrowen_bstring : list Z -> cxx_string) :
  query_rows api = [] ->
  result_of (version_name_wmi api narrowen_bstring) = [].
Proof.
  intros Hrows.
  destruct (wmi_session_ok_or_failed api) as [Hok|Hfail].
  - rewrite (version_name_wmi_ok api narrowen_bstring Hok).
    unfold retrieved_name. by rewrite Hrows.
  - exact (version_name_wmi_failed api narrowen_bstring Hfail).
Qed.

Lemma version_name_wmi_empty_without_rows_witness :
  query_rows (wmi_machine []) = [] /\
  result_of (version_name_wmi (wmi_machine []) narrow) = [].
Proof.
  split; [reflexivity|].
  exact (version_name_wmi_empty_without_rows (wmi_machine []) narrow eq_refl).
Defined.

(** ** The aggregator: failures, the cached pointer *)

(** On a kernel reporting major version 10 or above, a registry key that
    cannot be opened gives an empty [full_name] and a zero
    [patch_number]; the three kernel numbers are reported all the same. *)
Theorem OS_info_defaults_when_key_unopened (api : win32) (p : process) :
  open_status api <> ERROR_SUCCESS ->
  10 <= major_version (info_of api p) ->
  full_name (info_of api p) = [] /\
  patch_number (info_of api p) = 0 /\
  major_version (info_of api p) = dwMajorVersion (kernel_version api p) /\
  minor_version (info_of api p) = dwMinorVersion (kernel_version api p) /\
  os_build_number (info_of api p) = dwBuildNumber (kernel_version api p).
Proof.
  intros Hopen Hmajor. destruct (unopened_key api Hopen) as [Hname Hbuild].
  rewrite info_of_eq in Hmajor |- *.
  cbn [major_version minor_version os_build_number patch_number full_name] in *.
  apply Z.ltb_ge in Hmajor. rewrite Hmajor. unfold result_of. rewrite Hname, Hbuild.
  cbn [fst]. split; [|done].
  unfold corrected_name. by destruct (_ && _).
Qed.

Lemma OS_info_defaults_when_key_unopened_witness :
  open_status locked_machine <> ERROR_SUCCESS /\
  full_name (info_of locked_machine fresh_process) = [] /\
  major_version (info_of locked_machine fresh_process) = 10.
Proof.
  assert (open_status locked_machine <> ERROR_SUCCESS) as Hopen by (vm_compute; discriminate).
  assert (10 <= major_version (info_of locked_machine fresh_process)) as Hmajor
    by (vm_compute; discriminate).
  split; [exact Hopen|].
  destruct (OS_info_defaults_when_key_unopened locked_machine fresh_process Hopen Hmajor)
    as (Hname & _ & Hm & _).
  split; [exact Hname|]. rewrite Hm. reflexivity.
Defined.

(** The pointer to the kernel query is resolved by the first call only:
    every later call in the process, whatever the platform would answer
    then, reuses what the first call found.  After a first call that
    could not resolve it the three kernel numbers stay 0; after one that
    could, they are what the query writes, and the lookup is not
    repeated.  The process state no longer changes. *)
Theorem pRtlGetVersion_is_resolved_once (first later : win32) :
  process_after later (process_after first fresh_process)
  = process_after first fresh_process /\
  (unresolved first fresh_process ->
   major_version (info_of later (process_after first fresh_process)) = 0 /\
   minor_version (info_of later (process_after first fresh_process)) = 0 /\
   os_build_number (info_of later (process_after first fresh_process)) = 0) /\
  (~ unresolved first fresh_process ->
   major_version (info_of later (process_after first fresh_process))
   = to_DWORD (dwMajorVersion (RtlGetVersion_out later)) /\
   minor_version (info_of later (process_after first fresh_process))
   = to_DWORD (dwMinorVersion (RtlGetVersion_out later)) /\
   os_build_number (info_of later (process_after first fresh_process))
   = to_DWORD (dwBuildNumber (RtlGetVersion_out later))).
Proof.
  rewrite !process_after_eq, !info_of_eq.
  cbn [major_version minor_version os_build_number].
  unfold kernel_version, unresolved, static_pRtlGetVersion, fresh_process, RtlGetVersion.
  cbn [pRtlGetVersion fst snd].
  destruct (GetModuleHandleA_ntdll first), (GetProcAddress_RtlGetVersion first);
    cbn; (split; [done|]); split; intros H; try done; try (by destruct H);
    exfalso; apply H; auto.
Qed.

Lemma pRtlGetVersion_is_resolved_once_witness :
  unresolved unresolved_machine fresh_process /\
  major_version (info_of win11_machine (process_after unresolved_machine fresh_process)) = 0.
Proof.
  assert (unresolved unresolved_machine fresh_process) as Hun by (right; reflexivity).
  split; [exact Hun|].
  exact (proj1 (proj1 (proj2 (pRtlGetVersion_is_resolved_once unresolved_machine win11_machine))
                 Hun)).
Defined.

(** On Windows 11 (major 10, minor 0, build 22000 or above) a resolved
    name whose first " 10" sits after [pre] comes out with that " 10"
    turned into " 11" and everything else, later occurrences of " 10"
    included, as it was (lines 157-160). *)
Theorem win11_correction_rewrites_first_occurrence
    (api : win32) (p : process) (pre post : cxx_string) :
  is_win11 (info_of api p) ->
  resolved_name api p = pre ++ str " 10" ++ post ->
  (forall pre' post',
     resolved_name api p = pre' ++ str " 10" ++ post' -> (length pre <= length pre')%nat) ->
  full_name (info_of api p) = pre ++ str " 11" ++ post.
Proof.
  intros Hwin Hname Hfirst.
  assert (contains (resolved_name api p) (str " 10")) as Hcontains by by exists pre, post.
  destruct (correction_fires api p Hwin Hcontains)
    as (pos & [(pre0 & post0 & Hname0 & Hpos) Hmin] & Hfull & _).
  assert (pos = length pre) as ->.
  { apply Nat.le_antisymm; [by apply (Hmin pre post)|].
    rewrite <- Hpos. by apply (Hfirst pre0 post0). }
  rewrite Hfull, Hname. rewrite insert_app_r_alt by lia.
  replace (length pre + 2 - length pre)%nat with 2%nat by lia. reflexivity.
Qed.

Lemma win11_correction_rewrites_first_occurrence_witness :
  is_win11 (info_of win11_machine fresh_process) /\
  full_name (info_of win11_machine fresh_process) = str "Windows" ++ str " 11" ++ str " Pro".
Proof.
  assert (is_win11 (info_of win11_machine fresh_process)) as Hwin.
  { repeat split. vm_compute. discriminate. }
  split; [exact Hwin|].
  refine (win11_correction_rewrites_first_occurrence win11_machine fresh_process
            (str "Windows") (str " Pro") Hwin _ _).
  - reflexivity.
  - intros pre' post' Heq.
    destruct (find_Some (str "Windows 10 Pro") (str " 10") 7 eq_refl) as [_ Hmin].
    exact (Hmin pre' post' Heq).
Defined.

Lemma resolver_calls_of_build_number (api : win32) :
  calls "build_number" (trace_of (version_name_reg api)) = 0%nat /\
  calls "build_number" (trace_of (build_number api)) = 1%nat.
Proof. unfold trace_of, calls. split; by registry_cases. Qed.

(** Every call of the aggregator enters [build_number] exactly once,
    after the name has been resolved, whichever resolver ran and
    whatever it returned; [patch_number] is its result (line 169). *)
Theorem OS_info_reads_patch_number_once (api : win32) (p : process) :
  calls "build_number" (log_of api p) = 1%nat /\
  patch_number (info_of api p) = result_of (build_number api) /\
  (trace_of (build_number api) `suffix_of` log_of api p).
Proof.
  destruct (resolver_calls_of_build_number api) as [Hreg Hbuild].
  rewrite info_of_eq, log_of_eq. cbn [patch_number]. unfold calls in *.
  rewrite count_if_app, Hbuild.
  split; [|split; [done | by apply suffix_app_r]].
  destruct (dwMajorVersion (kernel_version api p) <? 10); [done | by rewrite Hreg].
Qed.

Lemma drain_acquires_no_com (narrowen_bstring : list Z -> cxx_string)
    (rows : list (list Z)) (i : nat) (acc : cxx_string) :
  count_if (is_acquire ComLibrary) (trace_of (drain narrowen_bstring rows i acc)) = 0%nat.
Proof.
  revert i acc. induction rows as [|name rows IH]; intros i acc; [done|].
  unfold trace_of in *. cbn [drain].
  unfold unique_ptr_release, quickscope_wrapper, Get, VariantClear, bind, emit, ret. cbn.
  specialize (IH (S i) (narrowen_bstring name)).
  destruct (drain narrowen_bstring rows (S i) (narrowen_bstring name)) as [r tr].
  cbn in IH |- *. exact IH.
Qed.

(** The COM library is initialised by [version_name_wmi] at most once
    per call, also when the first attempt is answered with
    RPC_E_CHANGED_MODE and retried: exactly once when the status kept in
    [err] is a success, never otherwise (lines 28-33). *)
Theorem version_name_wmi_initialises_com_once
    (api : win32) (narrowen_bstring : list Z -> cxx_string) :
  count_if (is_acquire ComLibrary) (trace_of (version_name_wmi api narrowen_bstring))
  = if FAILED (com_initialised api) then 0%nat else 1%nat.
Proof.
  pose proof (drain_acquires_no_com narrowen_bstring (query_rows api) 0 []) as Hdrain.
  unfold com_initialised, trace_of in *. unfold_wmi.
  destruct (drain narrowen_bstring (query_rows api) 0 []) as [name tr]. cbn [snd] in Hdrain.
  repeat hresult_step; try congruence; try destruct (find_char name "|");
    repeat (progress (cbn; rewrite ?count_if_app, ?Hdrain;
                      try change (RPC_E_CHANGED_MODE =? RPC_E_CHANGED_MODE) with true;
                      repeat match goal with
                        | H : FAILED _ = _ |- _ => rewrite H
                        | H : ?hr <> RPC_E_CHANGED_MODE |- _ =>
                            rewrite (proj2 (Z.eqb_neq hr RPC_E_CHANGED_MODE) H)
                        end));
    reflexivity.
Qed.
